(** * Media Monitor: the file ingestion pipeline of [app.py]

    A shallow embedding of the per-file workflow of the media monitor
    ([analyze_file] and the functions it calls) and the properties of its
    specification.

    - [Py]: the fragment of Python the workflow relies on: JSON values as
      [json.loads] produces them, truthiness, [dict.get], iteration,
      [str.join], exceptions.
    - [Classifier]: lines 294-317 of [analyze_file].
    - [Store]: the [processed_files] table and its two statements.
    - [Stabilizer]: the polling loop of [wait_for_stable_file].
    - [PyFloat], [Embed]: the builtin [float] as far as it raises, and the
      building of the rich channel's embed.
    - [Workflow]: [analyze_file] itself over an explicit world (store,
      environment answers, event trace).
    - [Pool]: two workers of the thread pool interleaved on one path.
    - [Metadata]: the metadata record of the specification, read off a
      JSON value.
    - [Shape], [Stats], [Sampling], [Events], [Routes]: what the further
      properties speak of: the values the classification can read, the
      counts of [get_stats], sequences of samples, kinds of events, and the
      test and statistics routes.

    The definitions come first; the lemmas and the claims of the
    specification follow, component by component. *)

From Stdlib Require Import ZArith List String Ascii Bool Lia Floats.
Import ListNotations.
Local Open Scope string_scope.
Local Open Scope Z_scope.
Set Warnings "-register-all".

(** ** Python values and exceptions *)

Module Py.

(** A value returned by [json.loads].  Python's [None] is [JNull]. *)
Inductive json : Type :=
| JNull
| JBool (b : bool)
| JInt (n : Z)
| JFloat (f : float)
| JStr (s : string)
| JArr (items : list json)
| JObj (fields : list (string * json)).

(** The exception classes that can arise on the workflow's paths.  All of
    them derive from [Exception]. *)
Inductive exn : Type :=
| FileNotFoundError
| OSError
| ValueError
| TypeError
| AttributeError
| JSONDecodeError
| OperationalError
| RequestException
| OverflowError.

(** The result of evaluating a pure expression: a value or a raised
    exception. *)
Inductive res (A : Type) : Type :=
| Val (a : A)
| Exc (e : exn).
Arguments Val {A} a.
Arguments Exc {A} e.

Definition rbind {A B} (r : res A) (k : A -> res B) : res B :=
  match r with
  | Val a => k a
  | Exc e => Exc e
  end.

(** [bool(v)]: what [not v] and [if v] test. *)
Definition truthy (v : json) : bool :=
  match v with
  | JNull => false
  | JBool b => b
  | JInt n => negb (n =? 0)
  | JFloat f => negb (PrimFloat.eqb f 0%float)
  | JStr s => negb (s =? "")%string
  | JArr items => match items with [] => false | _ => true end
  | JObj fields => match fields with [] => false | _ => true end
  end.

(** Lookup in a dict; the first binding of a key is the dict's entry. *)
Fixpoint lookup (k : string) (fields : list (string * json)) : option json :=
  match fields with
  | [] => None
  | (k', v) :: rest => if (k' =? k)%string then Some v else lookup k rest
  end.

(** [d.get(k, default)]: only a dict has the method. *)
Definition get (d : json) (k : string) (default : json) : res json :=
  match d with
  | JObj fields =>
      match lookup k fields with
      | Some v => Val v
      | None => Val default
      end
  | _ => Exc AttributeError
  end.

Fixpoint chars (s : string) : list json :=
  match s with
  | EmptyString => []
  | String c rest => JStr (String c EmptyString) :: chars rest
  end.

(** [for s in v]: a list yields its items, a dict its keys, a string its
    characters; anything else is not iterable. *)
Definition iter (v : json) : res (list json) :=
  match v with
  | JArr items => Val items
  | JObj fields => Val (map (fun kv => JStr (fst kv)) fields)
  | JStr s => Val (chars s)
  | _ => Exc TypeError
  end.

(** [v == 'literal']. *)
Definition eq_str (v : json) (lit : string) : bool :=
  match v with
  | JStr s => (s =? lit)%string
  | _ => false
  end.

(** [sep.join(parts)]. *)
Fixpoint join (sep : string) (parts : list string) : string :=
  match parts with
  | [] => ""
  | [p] => p
  | p :: rest => (p ++ sep ++ join sep rest)%string
  end.

(** [sum(1 for s in items if cond(s))]: the generator is consumed in order
    and the first exception ends it. *)
Fixpoint count_if (cond : json -> res bool) (items : list json) : res Z :=
  match items with
  | [] => Val 0
  | s :: rest =>
      rbind (cond s) (fun hit =>
      rbind (count_if cond rest) (fun n =>
      Val (if hit then 1 + n else n)))
  end.

End Py.

(** ** Classifier *)

Module Classifier.
Import Py.

(** [s.get('codec_type') == kind and not s.get('tags', {}).get('language')]
    with [and] short-circuiting: the tags are only looked at for a stream of
    the given kind. *)
Definition missing_language (kind : string) (s : json) : res bool :=
  rbind (get s "codec_type" JNull) (fun ct =>
  if eq_str ct kind then
    rbind (get s "tags" (JObj [])) (fun tags =>
    rbind (get tags "language" JNull) (fun lang =>
    Val (negb (truthy lang))))
  else Val false).

(** [sum(1 for s in media_info.get('streams', []) if ...)]. *)
Definition count_missing (kind : string) (media_info : json) : res Z :=
  rbind (get media_info "streams" (JArr [])) (fun streams =>
  rbind (iter streams) (fun items =>
  count_if (missing_language kind) items)).

Definition SIZE_LIMIT : Z := 20 * 1024 * 1024 * 1024.

(** Lines 294-317 of [analyze_file]: the status string of a probed file. *)
Definition classify (media_info : json) (size : Z) : res string :=
  rbind (count_missing "audio" media_info) (fun audio_missing =>
  rbind (count_missing "subtitle" media_info) (fun sub_missing =>
  let needs_remux := (audio_missing >? 0) || (sub_missing >? 0) in
  let status : list string := [] in
  let status := if size >? SIZE_LIMIT then (status ++ ["RE-ENCODE"])%list else status in
  let status := if needs_remux then (status ++ ["REMUX"])%list else status in
  let status := match status with [] => (status ++ ["OK"])%list | _ => status end in
  Val (join " | " status))).

End Classifier.
(** ** Dedup store *)

Module Store.

(** A row of [processed_files], columns in the order of the
    [CREATE TABLE] statement. *)
Record row : Type := {
  filepath : string;
  processed_at : Z;
  status : string;
  size : Z
}.

(** The table, oldest row first. *)
Definition table : Type := list row.

(** [CREATE TABLE IF NOT EXISTS]: a table that exists is kept. *)
Definition init_db (existing : option table) : table :=
  match existing with
  | Some t => t
  | None => []
  end.

(** [SELECT filepath FROM processed_files WHERE filepath = ?], [fetchone]. *)
Definition select_filepath (t : table) (p : string) : option string :=
  match filter (fun r => (filepath r =? p)%string) t with
  | [] => None
  | r :: _ => Some (filepath r)
  end.

(** [is_already_processed]: [result is not None]. *)
Definition is_already_processed (t : table) (p : string) : bool :=
  match select_filepath t p with
  | Some _ => true
  | None => false
  end.

(** [INSERT OR REPLACE]: the rows that conflict with the new one on the
    primary key are deleted, then the new row is inserted. *)
Definition insert_or_replace (t : table) (r : row) : table :=
  (filter (fun r' => negb (filepath r' =? filepath r)%string) t ++ [r])%list.

(** [mark_as_processed]; [now] is the value of [datetime.now()]. *)
Definition mark_as_processed (t : table) (p status : string) (size now : Z) : table :=
  insert_or_replace t
    {| filepath := p; processed_at := now; status := status; size := size |}.

(** The records kept for a path. *)
Definition records (t : table) (p : string) : list row :=
  filter (fun r => (filepath r =? p)%string) t.

(** The tables the two statements can produce from a fresh database. *)
Inductive reachable : table -> Prop :=
| reach_init : reachable (init_db None)
| reach_mark t p status size now :
    reachable t -> reachable (mark_as_processed t p status size now).

End Store.

(** ** The world a workflow runs in *)

Module Env.
Import Py.

(** What [os.path.getsize] answers. *)
Inductive getsize_answer : Type :=
| Size (n : Z)
| Missing          (* FileNotFoundError *)
| Denied.          (* another OSError *)

(** What running ffprobe gives: the process could not be started, or it
    exited with a return code and wrote [stdout]; [stdout] is represented by
    what [json.loads] makes of it, [None] when it is not JSON. *)
Inductive probe_answer : Type :=
| SpawnFailed
| Exited (returncode : Z) (stdout : option json).

(** What [requests.post] inside a channel's [try] block gives: a response
    with a status code, or an exception (of the transport, or of building
    the request). *)
Inductive http_answer : Type :=
| Status (code : Z)
| Refused.

Inductive channel : Type := Ntfy | Discord.

(** The lines the workflow prints. *)
Inductive log_line : Type :=
| Analyzing (p : string)
| AlreadyProcessed (p : string)
| WaitingToStabilize (p : string)
| Disappeared (p : string)
| MediaInfoError
| NoMediaInfo (p : string)
| NotificationSent (ch : channel) (code : Z)
| NotificationError (ch : channel)
| Processed (p status : string)
| ErrorAnalyzing (p : string) (e : exn).

(** What a run does to the outside, in the trace. *)
Inductive event : Type :=
| EvLog (l : log_line)
| EvSelect (p : string)
| EvUpsert (r : Store.row)
| EvStoreFault
| EvGetsize (p : string) (a : getsize_answer)
| EvSleep (secs : Z)
| EvProbe (p : string) (a : probe_answer)
| EvPost (ch : channel) (status : string) (a : http_answer).

(** The module constants read from the process environment. *)
Record settings : Type := {
  STABILIZE_INTERVAL : Z;
  STABILIZE_CHECKS : Z
}.

(** The global [config] dict, with the keys the notifier reads. *)
Record config : Type := {
  ntfy_server : string;
  ntfy_topic : string;
  discord_webhook : string;
  enable_discord : bool;
  enable_ntfy : bool
}.

(** The state a run reads and writes: the store, the answers the
    environment will give to the next calls of each kind, the clock, and the
    trace of what was done, most recent event first. *)
Record world : Type := {
  consts : settings;
  conf : config;
  db : Store.table;
  store_faults : list bool;
  sizes : list getsize_answer;
  probes : list probe_answer;
  posts : list http_answer;
  clock : Z;
  trace : list event
}.

Definition set_db (t : Store.table) (w : world) : world :=
  {| consts := consts w; conf := conf w; db := t; store_faults := store_faults w;
     sizes := sizes w; probes := probes w; posts := posts w; clock := clock w;
     trace := trace w |}.

Definition set_store_faults (l : list bool) (w : world) : world :=
  {| consts := consts w; conf := conf w; db := db w; store_faults := l;
     sizes := sizes w; probes := probes w; posts := posts w; clock := clock w;
     trace := trace w |}.

Definition set_sizes (l : list getsize_answer) (w : world) : world :=
  {| consts := consts w; conf := conf w; db := db w; store_faults := store_faults w;
     sizes := l; probes := probes w; posts := posts w; clock := clock w;
     trace := trace w |}.

Definition set_probes (l : list probe_answer) (w : world) : world :=
  {| consts := consts w; conf := conf w; db := db w; store_faults := store_faults w;
     sizes := sizes w; probes := l; posts := posts w; clock := clock w;
     trace := trace w |}.

Definition set_posts (l : list http_answer) (w : world) : world :=
  {| consts := consts w; conf := conf w; db := db w; store_faults := store_faults w;
     sizes := sizes w; probes := probes w; posts := l; clock := clock w;
     trace := trace w |}.

Definition set_clock (t : Z) (w : world) : world :=
  {| consts := consts w; conf := conf w; db := db w; store_faults := store_faults w;
     sizes := sizes w; probes := probes w; posts := posts w; clock := t;
     trace := trace w |}.

Definition set_trace (l : list event) (w : world) : world :=
  {| consts := consts w; conf := conf w; db := db w; store_faults := store_faults w;
     sizes := sizes w; probes := probes w; posts := posts w; clock := clock w;
     trace := l |}.

Definition emit (e : event) (w : world) : world := set_trace (e :: trace w) w.

(** How a call ends: it returns, it raises, or it is still waiting for the
    environment (the answers ran out). *)
Inductive outcome (A : Type) : Type :=
| Ret (a : A)
| Raise (e : exn)
| Blocked.
Arguments Ret {A} a.
Arguments Raise {A} e.
Arguments Blocked {A}.

(** Effectful code: a function of the world. *)
Definition M (A : Type) : Type := world -> outcome A * world.

Definition ret {A} (a : A) : M A := fun w => (Ret a, w).

Definition bind {A B} (m : M A) (k : A -> M B) : M B :=
  fun w =>
    match m w with
    | (Ret a, w') => k a w'
    | (Raise e, w') => (Raise e, w')
    | (Blocked, w') => (Blocked, w')
    end.

(** [try: body except Exception as e: handler(e)]. *)
Definition try_except {A} (body : M A) (handler : exn -> M A) : M A :=
  fun w =>
    match body w with
    | (Raise e, w') => handler e w'
    | r => r
    end.

(** A pure expression evaluated inside effectful code. *)
Definition lift {A} (r : res A) : M A :=
  fun w =>
    match r with
    | Val a => (Ret a, w)
    | Exc e => (Raise e, w)
    end.

Definition log (l : log_line) : M unit := fun w => (Ret tt, emit (EvLog l) w).

End Env.

Declare Scope monad_scope.
Delimit Scope monad_scope with monad.
Notation "x <- m ;; k" := (Env.bind m (fun x => k))
  (at level 61, m at next level, right associativity) : monad_scope.
Notation "m ;; k" := (Env.bind m (fun _ => k))
  (at level 61, right associativity) : monad_scope.

(** ** Stabilizer *)

Module Stabilizer.
Import Py Env.

(** The [while] loop of [wait_for_stable_file], one iteration per answer of
    [os.path.getsize]; it threads the answers still to come and the trace.
    [time.sleep] refuses a negative length. *)
Fixpoint stable_loop (cfg : settings) (filepath : string)
    (last_size stable_count : Z)
    (samples : list getsize_answer) (tr : list event)
    : outcome bool * list getsize_answer * list event :=
  if stable_count <? STABILIZE_CHECKS cfg then
    match samples with
    | [] => (Blocked, [], tr)
    | a :: rest =>
        let tr := EvGetsize filepath a :: tr in
        match a with
        | Size current_size =>
            let stable_count' :=
              if current_size =? last_size then stable_count + 1 else 0 in
            let last_size' :=
              if current_size =? last_size then last_size else current_size in
            if STABILIZE_INTERVAL cfg <? 0 then (Raise ValueError, rest, tr)
            else stable_loop cfg filepath last_size' stable_count' rest
                   (EvSleep (STABILIZE_INTERVAL cfg) :: tr)
        | Missing => (Ret false, rest, tr)
        | Denied => (Raise OSError, rest, tr)
        end
    end
  else (Ret true, samples, tr).

(** [wait_for_stable_file]: [True] is Stable, [False] is Vanished. *)
Definition wait_for_stable_file (filepath : string) : M bool :=
  fun w =>
    let '(r, rest, tr) :=
      stable_loop (consts w) filepath (-1) 0 (sizes w) (trace w) in
    (r, set_trace tr (set_sizes rest w)).

End Stabilizer.

(** ** The builtin [float] and true division *)

Module PyFloat.
Import Py.

(** A [string] lists the characters of a Python [str] by their code points,
    all below 256. *)
Definition code (c : ascii) : N := N_of_ascii c.

Definition is_digit (c : ascii) : bool :=
  ((48 <=? code c) && (code c <=? 57))%N.

(** What [float] strips at both ends: the ASCII blanks, and the characters
    beyond ASCII that are spaces (NEL and the no-break space). *)
Definition is_space (c : ascii) : bool :=
  (((9 <=? code c) && (code c <=? 13)) || (code c =? 32) ||
   (code c =? 133) || (code c =? 160))%N.

Definition is_underscore (c : ascii) : bool := (code c =? 95)%N.
Definition is_sign (c : ascii) : bool := ((code c =? 43) || (code c =? 45))%N.
Definition is_point (c : ascii) : bool := (code c =? 46)%N.
Definition is_exponent (c : ascii) : bool := ((code c =? 101) || (code c =? 69))%N.

(** An ASCII letter in lower case; other characters as they are. *)
Definition lower_letter (c : ascii) : ascii :=
  if ((65 <=? code c) && (code c <=? 90))%N
  then ascii_of_N (code c + 32) else c.

Fixpoint drop_spaces (l : list ascii) : list ascii :=
  match l with
  | c :: rest => if is_space c then drop_spaces rest else l
  | [] => []
  end.

Definition strip (l : list ascii) : list ascii :=
  rev (drop_spaces (rev (drop_spaces l))).

(** An underscore stands between two digits. *)
Fixpoint underscores_ok (prev_digit : bool) (l : list ascii) : bool :=
  match l with
  | [] => true
  | c :: rest =>
      if is_underscore c
      then prev_digit
           && match rest with d :: _ => is_digit d | [] => false end
           && underscores_ok false rest
      else underscores_ok (is_digit c) rest
  end.

(** The digits a list starts with, and what follows them. *)
Fixpoint digits (l : list ascii) : list ascii * list ascii :=
  match l with
  | c :: rest =>
      if is_digit c then let (d, r) := digits rest in (c :: d, r) else ([], l)
  | [] => ([], [])
  end.

Definition drop_sign (l : list ascii) : list ascii :=
  match l with
  | c :: rest => if is_sign c then rest else l
  | [] => []
  end.

Definition is_word (word : string) (l : list ascii) : bool :=
  if list_eq_dec ascii_dec (map lower_letter l) (list_ascii_of_string word)
  then true else false.

(** A decimal number: digits, with a point somewhere if one likes, at least
    one digit, then if one likes an exponent with at least one digit. *)
Definition is_decimal (l : list ascii) : bool :=
  let (int_part, after_int) := digits l in
  let (frac_part, after_frac) :=
    match after_int with
    | c :: rest => if is_point c then digits rest else ([], after_int)
    | [] => ([], [])
    end in
  match int_part, frac_part with
  | [], [] => false
  | _, _ =>
      match after_frac with
      | [] => true
      | c :: rest =>
          is_exponent c &&
          match digits (drop_sign rest) with
          | (_ :: _, []) => true
          | _ => false
          end
      end
  end.

(** [float(s)] returns for the string [s]; otherwise it raises
    [ValueError]. *)
Definition accepts (s : string) : bool :=
  let l := strip (list_ascii_of_string s) in
  underscores_ok false l &&
  let body := drop_sign (filter (fun c => negb (is_underscore c)) l) in
  is_word "inf" body || is_word "infinity" body || is_word "nan" body ||
  is_decimal body.

(** The integers at and beyond this bound round to no finite float. *)
Definition FLOAT_LIMIT : Z := 2 ^ 1024 - 2 ^ 970.

(** [float(v)] for a JSON value, as far as it raises. *)
Definition float (v : json) : res unit :=
  match v with
  | JBool _ | JFloat _ => Val tt
  | JInt n => if Z.abs n <? FLOAT_LIMIT then Val tt else Exc OverflowError
  | JStr s => if accepts s then Val tt else Exc ValueError
  | JNull | JArr _ | JObj _ => Exc TypeError
  end.

(** [n / d] of two integers, [d] a positive power of two, as far as it
    raises: the quotient has to round to a finite float. *)
Definition true_division (n d : Z) : res unit :=
  if Z.abs n <? FLOAT_LIMIT * d then Val tt else Exc OverflowError.

End PyFloat.

(** ** The embed of the rich channel *)

Module Embed.
Import Py.

(** The fields added when media details are available. *)
Inductive detail : Type :=
| VideoField (codec_name width height : json)
| AudioField (codec_name : json) (tracks : Z)
| DurationField (duration : json).

(** The embed as far as it depends on the file's data: the title, the
    description and the type come from the path alone and the timestamp
    from the clock; the poster is never there. *)
Record embed : Type := {
  color : Z;
  status_field : string;
  size_field : Z;
  details : list detail
}.

(** [[s for s in items if s.get('codec_type') == kind]]. *)
Fixpoint select_kind (kind : string) (items : list json) : res (list json) :=
  match items with
  | [] => Val []
  | s :: rest =>
      rbind (get s "codec_type" JNull) (fun ct =>
      rbind (select_kind kind rest) (fun chosen =>
      Val (if eq_str ct kind then s :: chosen else chosen)))
  end.

Definition streams_of_kind (kind : string) (media_info : json) : res (list json) :=
  rbind (get media_info "streams" (JArr [])) (fun streams =>
  rbind (iter streams) (fun items =>
  select_kind kind items)).

(** Lines 228-253: the block under [if media_info:]. *)
Definition media_details (media_info : json) : res (list detail) :=
  rbind (get media_info "format" (JObj [])) (fun format_info =>
  rbind (streams_of_kind "video" media_info) (fun video_streams =>
  rbind (streams_of_kind "audio" media_info) (fun audio_streams =>
  rbind (match video_streams with
         | video :: _ =>
             rbind (get video "codec_name" (JStr "unknown")) (fun codec_name =>
             rbind (get video "width" (JStr "?")) (fun width =>
             rbind (get video "height" (JStr "?")) (fun height =>
             Val [VideoField codec_name width height])))
         | [] => Val []
         end) (fun video_field =>
  rbind (match audio_streams with
         | audio :: _ =>
             rbind (get audio "codec_name" (JStr "unknown")) (fun codec_name =>
             Val [AudioField codec_name (Z.of_nat (List.length audio_streams))])
         | [] => Val []
         end) (fun audio_field =>
  rbind (get format_info "duration" (JInt 0)) (fun duration =>
  rbind (PyFloat.float duration) (fun _ =>
  Val (video_field ++ audio_field ++ [DurationField duration])%list))))))).

(** Lines 197-262: the embed of a file, or the exception building it
    raises. *)
Definition build_embed (status : string) (size : Z) (media_info : json) : res embed :=
  rbind (PyFloat.true_division size (1024 ^ 3)) (fun _ =>
  rbind (if truthy media_info then media_details media_info else Val [])
        (fun details =>
  Val {| color := if (status =? "OK")%string then 65280 else 16750848;
         status_field := status; size_field := size; details := details |})).

End Embed.

(** ** The per-file workflow *)

Module Workflow.
Import Py Env.
Local Open Scope monad_scope.

(** One access to the sqlite file: it raises when the store is unavailable.
    With no scripted answer left the store is available. *)
Definition store_access : M unit :=
  fun w =>
    match store_faults w with
    | true :: rest => (Raise OperationalError, emit EvStoreFault (set_store_faults rest w))
    | false :: rest => (Ret tt, set_store_faults rest w)
    | [] => (Ret tt, w)
    end.

Definition is_already_processed (filepath : string) : M bool :=
  store_access ;;
  fun w => (Ret (Store.is_already_processed (db w) filepath), emit (EvSelect filepath) w).

(** [datetime.now()]: the readings of the clock increase. *)
Definition datetime_now : M Z :=
  fun w => (Ret (clock w), set_clock (clock w + 1) w).

Definition mark_as_processed (filepath status : string) (size : Z) : M unit :=
  store_access ;;
  now <- datetime_now ;;
  fun w =>
    let t := Store.mark_as_processed (db w) filepath status size now in
    let r := {| Store.filepath := filepath; Store.processed_at := now;
                Store.status := status; Store.size := size |} in
    (Ret tt, emit (EvUpsert r) (set_db t w)).

(** [os.path.getsize]. *)
Definition getsize (filepath : string) : M Z :=
  fun w =>
    match sizes w with
    | [] => (Blocked, w)
    | a :: rest =>
        let w' := emit (EvGetsize filepath a) (set_sizes rest w) in
        match a with
        | Size n => (Ret n, w')
        | Missing => (Raise FileNotFoundError, w')
        | Denied => (Raise OSError, w')
        end
    end.

(** [subprocess.run] followed by [json.loads(result.stdout)]; the return
    code is not looked at. *)
Definition run_ffprobe (filepath : string) : M json :=
  fun w =>
    match probes w with
    | [] => (Blocked, w)
    | a :: rest =>
        let w' := emit (EvProbe filepath a) (set_probes rest w) in
        match a with
        | SpawnFailed => (Raise FileNotFoundError, w')
        | Exited _ None => (Raise JSONDecodeError, w')
        | Exited _ (Some parsed) => (Ret parsed, w')
        end
    end.

(** [get_media_info]: the parsed output, or [None] after any exception. *)
Definition get_media_info (filepath : string) : M json :=
  try_except (run_ffprobe filepath)
             (fun _ => log MediaInfoError ;; ret JNull).

(** [requests.post] of a channel, with the code of the response. *)
Definition post (ch : channel) (status : string) : M Z :=
  fun w =>
    match posts w with
    | [] => (Blocked, w)
    | a :: rest =>
        let w' := emit (EvPost ch status a) (set_posts rest w) in
        match a with
        | Status code => (Ret code, w')
        | Refused => (Raise RequestException, w')
        end
    end.

(** A string of the configuration is set when it is not empty. *)
Definition is_set (s : string) : bool := negb (s =? "")%string.

Definition channel_on (ch : channel) (c : config) : bool :=
  match ch with
  | Ntfy => enable_ntfy c && is_set (ntfy_topic c)
  | Discord => enable_discord c && is_set (discord_webhook c)
  end.

(** How many channels are switched on and have their endpoint. *)
Definition switched_on (c : config) : nat :=
  ((if channel_on Ntfy c then 1 else 0) + (if channel_on Discord c then 1 else 0))%nat.

(** [send_ntfy_notification]; of the message only the status is kept. *)
Definition send_ntfy_notification (status : string) : M unit :=
  fun w =>
    if negb (enable_ntfy (conf w)) || negb (is_set (ntfy_topic (conf w)))
    then (Ret tt, w)
    else
      try_except
        (code <- post Ntfy status ;; log (NotificationSent Ntfy code))
        (fun _ => log (NotificationError Ntfy)) w.

(** [send_discord_notification]: the embed is built and then posted,
    both inside the [try]; when building it raises there is no post. *)
Definition send_discord_notification (filepath status : string) (size : Z)
    (media_info : json) : M unit :=
  fun w =>
    if negb (enable_discord (conf w)) || negb (is_set (discord_webhook (conf w)))
    then (Ret tt, w)
    else
      try_except
        (_ <- lift (Embed.build_embed status size media_info) ;;
         code <- post Discord status ;;
         log (NotificationSent Discord code))
        (fun _ => log (NotificationError Discord)) w.

(** [media_info.get('format', {}).get('format_name', 'unknown')]. *)
Definition format_name_of (media_info : json) : res json :=
  rbind (get media_info "format" (JObj [])) (fun format =>
  get format "format_name" (JStr "unknown")).

(** Lines 286-333: the body of the [try] block. *)
Definition process_stable_file (filepath : string) : M unit :=
  size <- getsize filepath ;;
  media_info <- get_media_info filepath ;;
  if negb (truthy media_info) then
    log (NoMediaInfo filepath)
  else
    status_str <- lift (Classifier.classify media_info size) ;;
    _ <- lift (format_name_of media_info) ;;
    send_ntfy_notification status_str ;;
    send_discord_notification filepath status_str size media_info ;;
    mark_as_processed filepath status_str size ;;
    log (Processed filepath status_str).

(** Lines 272-277: the dedup check; [true] when the run goes on. *)
Definition dedup_check (filepath : string) : M bool :=
  log (Analyzing filepath) ;;
  already <- is_already_processed filepath ;;
  if already then log (AlreadyProcessed filepath) ;; ret false
  else ret true.

(** Lines 279-336: what a run does once past the dedup check. *)
Definition process_new_file (filepath : string) : M unit :=
  log (WaitingToStabilize filepath) ;;
  stable <- Stabilizer.wait_for_stable_file filepath ;;
  if negb stable then log (Disappeared filepath)
  else
    try_except (process_stable_file filepath)
               (fun e => log (ErrorAnalyzing filepath e)).

(** [analyze_file]. *)
Definition analyze_file (filepath : string) : M unit :=
  go_on <- dedup_check filepath ;;
  if go_on then process_new_file filepath else ret tt.

Definition is_polling (e : event) : bool :=
  match e with
  | EvGetsize _ _ | EvSleep _ => true
  | _ => false
  end.

Definition is_probe (e : event) : bool :=
  match e with
  | EvProbe _ _ => true
  | _ => false
  end.

Definition is_post (e : event) : bool :=
  match e with
  | EvPost _ _ _ => true
  | _ => false
  end.

Definition is_upsert (e : event) : bool :=
  match e with
  | EvUpsert _ => true
  | _ => false
  end.

(** An event that is neither a record write nor the line that reports a
    processed file. *)
Definition quiet (e : event) : bool :=
  match e with
  | EvUpsert _ | EvLog (Processed _ _) => false
  | _ => true
  end.

(** An event that is none of: polling, probing, posting, writing. *)
Definition idle (e : event) : bool :=
  negb (is_polling e) && negb (is_probe e) && negb (is_post e) && negb (is_upsert e).

(** The last thing a run did, when it is printing a line. *)
Definition ends_in (evs : list event) (l : log_line) : Prop :=
  hd_error evs = Some (EvLog l).

(** The next access to the store will not fail. *)
Definition store_up (w : world) : bool :=
  match store_faults w with
  | true :: _ => false
  | _ => true
  end.

(** A delivery failed: an exception, or a response outside 2xx. *)
Definition delivery_failed (a : http_answer) : bool :=
  match a with
  | Refused => true
  | Status code => negb ((200 <=? code) && (code <? 300))
  end.

Definition other (ch : channel) : channel :=
  match ch with
  | Ntfy => Discord
  | Discord => Ntfy
  end.

(** A world with a fresh store and an environment given by its answers. *)
Definition default_consts : settings :=
  {| STABILIZE_INTERVAL := 10; STABILIZE_CHECKS := 3 |}.

Definition both_channels : config :=
  {| ntfy_server := "https://ntfy.sh"; ntfy_topic := "media";
     discord_webhook := "https://discord.example/api/webhooks/1";
     enable_discord := true; enable_ntfy := true |}.

Definition fresh (t : Store.table) (faults : list bool)
    (sz : list getsize_answer) (pr : list probe_answer)
    (po : list http_answer) : world :=
  {| consts := default_consts; conf := both_channels; db := t;
     store_faults := faults; sizes := sz; probes := pr; posts := po;
     clock := 0; trace := [] |}.

End Workflow.

(** ** Two workers of the pool on one store *)

Module Pool.
Import Py Env Workflow.

(** Where a submitted call of [analyze_file] stands.  A worker thread runs
    the call; the store is only touched by the dedup check at the start and
    by the record write at the end, so a call is cut in two at the point
    where the check has answered. *)
Inductive worker : Type :=
| Queued (filepath : string)
| PastCheck (filepath : string)
| Finished (r : outcome unit).

(** The worker runs up to its next stop. *)
Definition advance (k : worker) (w : world) : worker * world :=
  match k with
  | Queued p =>
      match dedup_check p w with
      | (Ret true, w') => (PastCheck p, w')
      | (Ret false, w') => (Finished (Ret tt), w')
      | (Raise e, w') => (Finished (Raise e), w')
      | (Blocked, w') => (Finished Blocked, w')
      end
  | PastCheck p =>
      let (r, w') := process_new_file p w in (Finished r, w')
  | Finished r => (Finished r, w)
  end.

Inductive turn : Type := First | Second.

(** Two calls submitted to the executor, and the world they share. *)
Record pool : Type := {
  first : worker;
  second : worker;
  shared : world
}.

Definition step (t : turn) (s : pool) : pool :=
  match t with
  | First =>
      let (k, w) := advance (first s) (shared s) in
      {| first := k; second := second s; shared := w |}
  | Second =>
      let (k, w) := advance (second s) (shared s) in
      {| first := first s; second := k; shared := w |}
  end.

(** The pool under a schedule: which worker moves next. *)
Fixpoint run (schedule : list turn) (s : pool) : pool :=
  match schedule with
  | [] => s
  | t :: rest => run rest (step t s)
  end.

(** [executor.submit(analyze_file, path)], twice for the same path. *)
Definition submit_twice (filepath : string) (w : world) : pool :=
  {| first := Queued filepath; second := Queued filepath; shared := w |}.

(** How many events of a trace satisfy a test. *)
Definition count (f : event -> bool) (tr : list event) : nat :=
  List.length (filter f tr).

Definition passed_check (e : event) : bool :=
  match e with
  | EvLog (WaitingToStabilize _) => true
  | _ => false
  end.

Definition is_processed_line (p : string) (e : event) : bool :=
  match e with
  | EvLog (Processed p' _) => (p' =? p)%string
  | _ => false
  end.

(** The worker, if it still has work, works on the path. *)
Definition on_path (p : string) (k : worker) : Prop :=
  match k with
  | Queued q | PastCheck q => q = p
  | Finished _ => True
  end.

(** What has happened to the records of a path between two worlds: either
    they are the same and no run has reported the path processed, or a run
    has reported it and the path has exactly one record. *)
Definition store_effect (p : string) (w w' : world) : Prop :=
  exists evs,
    trace w' = (evs ++ trace w)%list /\
    ((Store.records (db w') p = Store.records (db w) p /\
      existsb (is_processed_line p) evs = false) \/
     (List.length (Store.records (db w') p) = 1%nat /\
      existsb (is_processed_line p) evs = true)).

End Pool.

(** ** The metadata record of the specification *)

Module Metadata.
Import Py.

(** A stream descriptor: a JSON object whose [tags], when present, is an
    object. *)
Definition stream_ok (s : json) : bool :=
  match s with
  | JObj fields =>
      match lookup "tags" fields with
      | None | Some (JObj _) => true
      | Some _ => false
      end
  | _ => false
  end.

(** A metadata record: a JSON object whose [streams], when present, is an
    array of stream descriptors. *)
Definition metadata_ok (media_info : json) : bool :=
  match media_info with
  | JObj fields =>
      match lookup "streams" fields with
      | None => true
      | Some (JArr items) => forallb stream_ok items
      | Some _ => false
      end
  | _ => false
  end.

Definition streams_of (media_info : json) : list json :=
  match media_info with
  | JObj fields =>
      match lookup "streams" fields with
      | Some (JArr items) => items
      | _ => []
      end
  | _ => []
  end.

Definition codec_type_of (s : json) : option json :=
  match s with
  | JObj fields => lookup "codec_type" fields
  | _ => None
  end.

Definition language_of (s : json) : option json :=
  match s with
  | JObj fields =>
      match lookup "tags" fields with
      | Some (JObj tags) => lookup "language" tags
      | _ => None
      end
  | _ => None
  end.

(** The stream has no usable language: the tag is absent, or present with
    an empty (falsy) value. *)
Definition lacks_language (s : json) : Prop :=
  match language_of s with
  | None => True
  | Some v => truthy v = false
  end.

Definition is_kind (kind : string) (s : json) : Prop :=
  codec_type_of s = Some (JStr kind).

(** Some audio stream or some subtitle stream lacks a language. *)
Definition untagged (media_info : json) : Prop :=
  exists s, In s (streams_of media_info) /\
            (is_kind "audio" s \/ is_kind "subtitle" s) /\
            lacks_language s.

(** Boolean versions, for computing. *)
Definition kind_b (kind : string) (s : json) : bool :=
  match codec_type_of s with
  | Some v => eq_str v kind
  | None => false
  end.

Definition lacks_b (s : json) : bool :=
  match language_of s with
  | None => true
  | Some v => negb (truthy v)
  end.

Definition untagged_b (media_info : json) : bool :=
  existsb (fun s => kind_b "audio" s && lacks_b s) (streams_of media_info)
  || existsb (fun s => kind_b "subtitle" s && lacks_b s) (streams_of media_info).

(** The status of a well-formed record, as a function of the two rules. *)
Definition status_of (reencode remux : bool) : string :=
  match reencode, remux with
  | true, true => "RE-ENCODE | REMUX"
  | true, false => "RE-ENCODE"
  | false, true => "REMUX"
  | false, false => "OK"
  end.

Definition GiB : Z := 1024 ^ 3.

(** A stream descriptor with a codec type and an optional language tag. *)
Definition stream (kind : string) (language : option string) : json :=
  JObj (("codec_type", JStr kind) ::
        match language with
        | Some l => [("tags", JObj [("language", JStr l)])]
        | None => []
        end).

Definition media (streams : list json) : json :=
  JObj [("format", JObj [("format_name", JStr "matroska,webm")]);
        ("streams", JArr streams)].

End Metadata.

(** ** Worlds for the examples *)

Module Scenario.
Import Py Env Workflow Metadata.

(** A file that has settled at 100 bytes, tagged in English, with both
    channels answering; enough answers for two runs. *)
Definition race_world : world :=
  fresh [] [] (map Size [100; 100; 100; 100; 100; 100; 100; 100; 100; 100])
        [Exited 0 (Some (media [stream "audio" (Some "eng")]));
         Exited 0 (Some (media [stream "audio" (Some "eng")]))]
        [Status 200; Status 204; Status 200; Status 204].

End Scenario.

(** ** The records [classify] can read *)

Module Shape.
Import Py.

(** [tags], when present, is an object. *)
Definition tags_usable (fields : list (string * json)) : bool :=
  match lookup "tags" fields with
  | None | Some (JObj _) => true
  | Some _ => false
  end.

(** An item of [streams] the counting pass for a kind gets through: an
    object whose [tags] are usable if it is a stream of that kind. *)
Definition readable_for (kind : string) (s : json) : bool :=
  match s with
  | JObj fields =>
      match lookup "codec_type" fields with
      | Some ct => if eq_str ct kind then tags_usable fields else true
      | None => true
      end
  | _ => false
  end.

(** An item both passes get through. *)
Definition stream_readable (s : json) : bool :=
  readable_for "audio" s && readable_for "subtitle" s.

(** A probe output the classification gets through. *)
Definition classifiable (media_info : json) : bool :=
  match media_info with
  | JObj fields =>
      match lookup "streams" fields with
      | None => true
      | Some (JArr items) => forallb stream_readable items
      | Some (JObj kv) => match kv with [] => true | _ => false end
      | Some (JStr s) => (s =? "")%string
      | Some _ => false
      end
  | _ => false
  end.

(** The four status strings. *)
Definition labels : list string :=
  ["OK"; "RE-ENCODE"; "REMUX"; "RE-ENCODE | REMUX"].

(** A stream that is neither audio nor subtitle. *)
Definition other_kind (s : json) : bool :=
  match s with
  | JObj fields =>
      match lookup "codec_type" fields with
      | Some ct => negb (eq_str ct "audio" || eq_str ct "subtitle")
      | None => true
      end
  | _ => false
  end.

End Shape.

(** ** Statistics over the store *)

Module Stats.
Import Store.

(** [SELECT COUNT( * ) FROM processed_files]. *)
Definition count_all (t : table) : Z := Z.of_nat (List.length t).

(** One more row of a status in the grouped counts. *)
Fixpoint bump (s : string) (groups : list (string * Z)) : list (string * Z) :=
  match groups with
  | [] => [(s, 1)]
  | (s', n) :: rest =>
      if (s' =? s)%string then (s', n + 1) :: rest else (s', n) :: bump s rest
  end.

(** [dict] of [SELECT status, COUNT( * ) ... GROUP BY status]: one key per
    status; the order of the keys plays no part. *)
Fixpoint count_by_status (t : table) : list (string * Z) :=
  match t with
  | [] => []
  | r :: rest => bump (status r) (count_by_status rest)
  end.

(** [d.get(s)] on the grouped counts. *)
Fixpoint count_of (s : string) (groups : list (string * Z)) : option Z :=
  match groups with
  | [] => None
  | (s', n) :: rest => if (s' =? s)%string then Some n else count_of s rest
  end.

(** [sum(d.values())]. *)
Definition sum_counts (groups : list (string * Z)) : Z :=
  fold_right (fun g acc => snd g + acc) 0 groups.

(** The rows of a status. *)
Definition with_status (s : string) (t : table) : list row :=
  filter (fun r => (status r =? s)%string) t.

End Stats.

(** ** Sequences of samples *)

Module Sampling.
Import Env.

(** Every size of the list differs from the one before it, the first from
    [last_size]. *)
Fixpoint changing (last_size : Z) (observed : list Z) : Prop :=
  match observed with
  | [] => True
  | x :: rest => x <> last_size /\ changing x rest
  end.

Definition is_sleep (e : event) : bool :=
  match e with
  | EvSleep _ => true
  | _ => false
  end.

(** How many answers of [os.path.getsize] a call used up. *)
Definition consumed (before after : world) : nat :=
  (List.length (sizes before) - List.length (sizes after))%nat.

End Sampling.

(** ** Events of a run, by kind *)

Module Events.
Import Env Workflow.

(** A post to the given channel. *)
Definition posts_to (ch : channel) (e : event) : bool :=
  match e, ch with
  | EvPost Ntfy _ _, Ntfy | EvPost Discord _ _, Discord => true
  | _, _ => false
  end.

(** Neither a post nor a record write. *)
Definition silent (e : event) : bool :=
  negb (is_post e) && negb (is_upsert e).

(** The configuration the process starts with when the environment sets
    none of the variables: both channels switched on, neither with an
    endpoint. *)
Definition default_config : config :=
  {| ntfy_server := "https://ntfy.sh"; ntfy_topic := "";
     discord_webhook := ""; enable_discord := true; enable_ntfy := true |}.

(** Both endpoints set, the rich channel switched off. *)
Definition discord_switched_off : config :=
  {| ntfy_server := "https://ntfy.sh"; ntfy_topic := "media";
     discord_webhook := "https://discord.example/api/webhooks/1";
     enable_discord := false; enable_ntfy := true |}.

End Events.

(** ** The routes of the web interface that reach the core *)

Module Routes.
Import Py Env Workflow.
Local Open Scope monad_scope.

Inductive message : Type :=
| TestNotificationSent            (* 'Test notification sent' *)
| TestSentHTTP (code : Z)         (* f'Test sent (HTTP {code})' *)
| ErrorText (e : exn).            (* str(e) *)

(** A JSON answer with its HTTP status. *)
Record response : Type := {
  http_status : Z;
  status : string;
  body : message
}.

(** [/api/test/ntfy]; the event keeps the title of the test message. *)
Definition test_ntfy : M response :=
  send_ntfy_notification "Test Notification" ;;
  ret {| http_status := 200; status := "success"; body := TestNotificationSent |}.

(** [/api/test/discord]: posts to the webhook without asking whether the
    channel is switched on. *)
Definition test_discord : M response :=
  try_except
    (code <- post Discord "Test Notification" ;;
     ret {| http_status := 200; status := "success"; body := TestSentHTTP code |})
    (fun e => ret {| http_status := 500; status := "error"; body := ErrorText e |}).

(** The counts of [/api/stats]; the two constants the answer also echoes
    are left out. *)
Record stats : Type := {
  total : Z;
  by_status : list (string * Z)
}.

(** [/api/stats]: the two queries, with no handler around them and no
    transaction around the two: [between] are the rows that worker threads
    commit after the first query and before the second. *)
Definition get_stats (between : list Store.row) : M stats :=
  store_access ;;
  fun w =>
    let at_first := db w in
    let at_second := fold_left Store.insert_or_replace between at_first in
    (Ret {| total := Stats.count_all at_first;
            by_status := Stats.count_by_status at_second |},
     set_db at_second w).

End Routes.

(** ** Properties of the classifier *)

Section ClassifierFacts.
Import Py Classifier Metadata.

Lemma kind_b_spec kind s : kind_b kind s = true <-> is_kind kind s.
Proof.
  unfold kind_b, is_kind. destruct (codec_type_of s) as [v|]; [|split; discriminate].
  destruct v; simpl; try (split; [discriminate | intros H; inversion H]).
  rewrite String.eqb_eq. split; [intros ->; reflexivity | intros H; inversion H; reflexivity].
Qed.

Lemma lacks_b_spec s : lacks_b s = true <-> lacks_language s.
Proof.
  unfold lacks_b, lacks_language. destruct (language_of s) as [v|]; [|tauto].
  rewrite negb_true_iff. tauto.
Qed.

Lemma missing_language_ok kind s :
  stream_ok s = true ->
  missing_language kind s = Val (kind_b kind s && lacks_b s).
Proof.
  unfold stream_ok, missing_language, kind_b, lacks_b, codec_type_of, language_of.
  destruct s as [| | | | |?|fields]; try discriminate. simpl.
  destruct (lookup "codec_type" fields) as [ct|]; simpl.
  - destruct (eq_str ct kind); simpl; [|reflexivity].
    destruct (lookup "tags" fields) as [[| | | | | |tags]|]; try discriminate; simpl;
      intros _; try reflexivity.
    destruct (lookup "language" tags); reflexivity.
  - reflexivity.
Qed.

Lemma count_if_total cond f items :
  (forall s, In s items -> cond s = Val (f s)) ->
  count_if cond items = Val (Z.of_nat (List.length (filter f items))).
Proof.
  induction items as [|s rest IH]; intros H; [reflexivity|].
  cbn [count_if filter].
  rewrite (H s (or_introl eq_refl)).
  rewrite IH by (intros; apply H; right; assumption). unfold rbind.
  destruct (f s); [|reflexivity].
  cbn [List.length]. rewrite Nat2Z.inj_succ. f_equal. lia.
Qed.

Lemma filter_length_pos {A} (f : A -> bool) l :
  (Z.of_nat (List.length (filter f l)) >? 0) = existsb f l.
Proof.
  induction l as [|a l IH]; simpl; [reflexivity|].
  destruct (f a); simpl; [|exact IH].
  apply Z.gtb_lt. lia.
Qed.

Lemma count_missing_ok kind media_info :
  metadata_ok media_info = true ->
  count_missing kind media_info =
  Val (Z.of_nat (List.length (filter (fun s => kind_b kind s && lacks_b s)
                                (streams_of media_info)))).
Proof.
  unfold metadata_ok, count_missing, streams_of.
  destruct media_info as [| | | | |?|fields]; try discriminate. simpl.
  destruct (lookup "streams" fields) as [[| | | | |items|]|]; try discriminate; simpl.
  - intros H. apply count_if_total. intros s Hs.
    apply missing_language_ok. rewrite forallb_forall in H. auto.
  - reflexivity.
Qed.

Lemma untagged_b_spec media_info :
  untagged_b media_info = true <-> untagged media_info.
Proof.
  unfold untagged_b, untagged. rewrite orb_true_iff, !existsb_exists. split.
  - intros [[s [Hin H]]|[s [Hin H]]]; apply andb_true_iff in H as [Hk Hl];
      exists s; rewrite kind_b_spec in Hk; rewrite lacks_b_spec in Hl; tauto.
  - intros [s [Hin [[Hk|Hk] Hl]]]; [left|right]; exists s; split; trivial;
      apply andb_true_iff; rewrite kind_b_spec, lacks_b_spec; tauto.
Qed.

Lemma classify_ok media_info size :
  metadata_ok media_info = true ->
  classify media_info size =
  Val (status_of (size >? SIZE_LIMIT) (untagged_b media_info)).
Proof.
  intros H. unfold classify, untagged_b.
  rewrite !count_missing_ok by assumption. simpl.
  rewrite !filter_length_pos.
  destruct (size >? SIZE_LIMIT), (existsb _ _), (existsb _ _); reflexivity.
Qed.

End ClassifierFacts.

(** ** Claims about the classifier *)

Section ClassifierClaims.
Import Py Classifier Metadata.

(** C1.  For every metadata record and file size, [classify] returns a
    status that carries RE-ENCODE exactly when the size exceeds 20 * 1024^3
    bytes, carries REMUX exactly when at least one audio stream or at least
    one subtitle stream lacks a language tag (absent or empty), is OK
    exactly when neither rule fires, and is the single string
    'RE-ENCODE | REMUX' when both fire. *)
Theorem classify_rules (media_info : json) (size : Z) :
  metadata_ok media_info = true ->
  exists status,
    classify media_info size = Val status /\
    (status = "RE-ENCODE" \/ status = "RE-ENCODE | REMUX" <-> size > 20 * 1024 ^ 3) /\
    (status = "REMUX" \/ status = "RE-ENCODE | REMUX" <-> untagged media_info) /\
    (status = "OK" <-> ~ size > 20 * 1024 ^ 3 /\ ~ untagged media_info) /\
    (size > 20 * 1024 ^ 3 -> untagged media_info -> status = "RE-ENCODE | REMUX").
Proof.
  intros Hok. eexists. split; [apply classify_ok; exact Hok|].
  rewrite <- untagged_b_spec.
  change (20 * 1024 ^ 3) with SIZE_LIMIT.
  destruct (untagged_b media_info); destruct (Z.gtb_spec size SIZE_LIMIT);
    cbn [status_of];
    repeat split; intros; auto;
    repeat match goal with
           | H : _ \/ _ |- _ => destruct H
           | H : _ /\ _ |- _ => destruct H
           end;
    try discriminate; try lia; try tauto.
Qed.

Lemma classify_rules_witness :
  exists status,
    classify (media [stream "video" None; stream "subtitle" None]) (25 * GiB) = Val status /\
    status = "RE-ENCODE | REMUX".
Proof.
  destruct (classify_rules (media [stream "video" None; stream "subtitle" None]) (25 * GiB) eq_refl)
    as [status [Hc [_ [_ [_ Hboth]]]]].
  exists status. split; [exact Hc|].
  apply Hboth.
  - reflexivity.
  - exists (stream "subtitle" None). split; [|split].
    + simpl. right. left. reflexivity.
    + right. reflexivity.
    + exact I.
Defined.

(** The four examples of the specification. *)
Example classify_25GiB_tagged :
  classify (media [stream "video" None; stream "audio" (Some "eng");
                   stream "subtitle" (Some "eng")]) (25 * GiB) = Val "RE-ENCODE".
Proof. reflexivity. Qed.

Example classify_1GiB_untagged_audio :
  classify (media [stream "video" None; stream "audio" None]) (1 * GiB) = Val "REMUX".
Proof. reflexivity. Qed.

Example classify_25GiB_untagged_subtitle :
  classify (media [stream "audio" (Some "eng"); stream "subtitle" None]) (25 * GiB)
  = Val "RE-ENCODE | REMUX".
Proof. reflexivity. Qed.

Example classify_1GiB_tagged :
  classify (media [stream "audio" (Some "eng"); stream "subtitle" (Some "fra")]) (1 * GiB)
  = Val "OK".
Proof. reflexivity. Qed.

(** The limit itself is not over the limit. *)
Example classify_at_limit :
  classify (media [stream "audio" (Some "eng")]) (20 * GiB) = Val "OK".
Proof. reflexivity. Qed.

(** C10.  An audio or subtitle stream whose language tag is present but
    equal to the empty string is counted exactly like a stream of that kind
    without a language tag, and a record holding such a stream is flagged
    REMUX. *)
Theorem empty_language_counts_as_missing (media_info : json) (size : Z) (s : json) (kind : string) :
  metadata_ok media_info = true ->
  In s (streams_of media_info) ->
  kind = "audio" \/ kind = "subtitle" ->
  is_kind kind s ->
  language_of s = Some (JStr "") ->
  missing_language kind s = Val true /\
  (forall s', stream_ok s' = true -> is_kind kind s' -> language_of s' = None ->
              missing_language kind s' = missing_language kind s) /\
  exists status,
    classify media_info size = Val status /\
    (status = "REMUX" \/ status = "RE-ENCODE | REMUX").
Proof.
  intros Hok Hin Hkind Hk Hlang.
  assert (Hs : stream_ok s = true).
  { unfold metadata_ok, streams_of in *.
    destruct media_info as [| | | | |?|fields]; try discriminate.
    destruct (lookup "streams" fields) as [[| | | | |items|]|]; try discriminate;
      try contradiction.
    rewrite forallb_forall in Hok. auto. }
  assert (Hm : missing_language kind s = Val true).
  { rewrite missing_language_ok by assumption.
    apply kind_b_spec in Hk. rewrite Hk. unfold lacks_b. rewrite Hlang. reflexivity. }
  split; [exact Hm|]. split.
  - intros s' Hs' Hk' Hl'. rewrite Hm, missing_language_ok by assumption.
    apply kind_b_spec in Hk'. rewrite Hk'. unfold lacks_b. rewrite Hl'. reflexivity.
  - assert (Hu : untagged_b media_info = true).
    { apply untagged_b_spec. exists s. split; [exact Hin|]. split.
      - destruct Hkind; subst kind; auto.
      - unfold lacks_language. rewrite Hlang. reflexivity. }
    rewrite (classify_ok media_info size Hok), Hu.
    destruct (size >? Classifier.SIZE_LIMIT); eexists; (split; [reflexivity|]); auto.
Qed.

Lemma empty_language_counts_as_missing_witness :
  missing_language "audio" (stream "audio" (Some "")) = Val true /\
  (forall s', stream_ok s' = true -> is_kind "audio" s' -> language_of s' = None ->
              missing_language "audio" s' = missing_language "audio" (stream "audio" (Some ""))) /\
  exists status,
    classify (media [stream "audio" (Some "")]) (1 * GiB) = Val status /\
    (status = "REMUX" \/ status = "RE-ENCODE | REMUX").
Proof.
  apply (empty_language_counts_as_missing
           (media [stream "audio" (Some "")]) (1 * GiB)
           (stream "audio" (Some "")) "audio").
  - reflexivity.
  - simpl. left. reflexivity.
  - left. reflexivity.
  - reflexivity.
  - reflexivity.
Defined.

End ClassifierClaims.


(** ** Properties of the dedup store *)

Section StoreFacts.
Import Store.

Lemma filter_filter_same {A} (f : A -> bool) (l : list A) :
  filter f (filter f l) = filter f l.
Proof.
  induction l as [|a l IH]; simpl; [reflexivity|].
  destruct (f a) eqn:Hf; simpl; [rewrite Hf, IH; reflexivity | exact IH].
Qed.

Lemma filter_none {A} (f : A -> bool) (l : list A) :
  filter f (filter (fun a => negb (f a)) l) = [].
Proof.
  induction l as [|a l IH]; simpl; [reflexivity|].
  destruct (f a) eqn:Hf; simpl; [exact IH | rewrite Hf; exact IH].
Qed.

Lemma filter_swap {A} (f g : A -> bool) (l : list A) :
  filter f (filter g l) = filter g (filter f l).
Proof.
  induction l as [|a l IH]; simpl; [reflexivity|].
  destruct (f a) eqn:Hf, (g a) eqn:Hg; simpl; rewrite ?Hf, ?Hg, IH; reflexivity.
Qed.

Lemma records_insert_same t r :
  records (insert_or_replace t r) (filepath r) = [r].
Proof.
  unfold records, insert_or_replace. rewrite filter_app.
  rewrite (filter_none (fun r' => (filepath r' =? filepath r)%string)).
  simpl. rewrite String.eqb_refl. reflexivity.
Qed.

Lemma records_insert_other t r q :
  filepath r <> q ->
  records (insert_or_replace t r) q = records t q.
Proof.
  intros Hq. unfold records, insert_or_replace. rewrite filter_app. simpl.
  apply String.eqb_neq in Hq. rewrite Hq, app_nil_r.
  rewrite filter_swap.
  induction t as [|a t IH]; simpl; [reflexivity|].
  destruct (filepath a =? q)%string eqn:Ha; simpl; [|exact IH].
  apply String.eqb_eq in Ha. subst q.
  assert (Hn : (filepath a =? filepath r)%string = false).
  { apply String.eqb_neq. apply String.eqb_neq in Hq. congruence. }
  rewrite Hn. simpl. rewrite IH. reflexivity.
Qed.

Lemma insert_twice t r r' :
  filepath r = filepath r' ->
  insert_or_replace (insert_or_replace t r) r' = insert_or_replace t r'.
Proof.
  intros Hp. unfold insert_or_replace. rewrite filter_app. simpl.
  rewrite Hp, String.eqb_refl. simpl. rewrite app_nil_r.
  rewrite filter_filter_same. reflexivity.
Qed.

Lemma is_already_processed_records t p :
  is_already_processed t p = true <-> records t p <> [].
Proof.
  unfold is_already_processed, select_filepath, records.
  destruct (filter _ t); split; intros; congruence.
Qed.

(** The primary key: no path has two rows. *)
Lemma reachable_unique t :
  reachable t -> forall q, (List.length (records t q) <= 1)%nat.
Proof.
  induction 1 as [|t p st sz now Hr IH]; intros q; [simpl; lia|].
  unfold mark_as_processed.
  destruct (String.eqb_spec p q) as [->|Hne].
  - change q with
      (filepath {| filepath := q; processed_at := now; status := st; size := sz |}) at 2.
    rewrite records_insert_same. simpl. lia.
  - rewrite records_insert_other by exact Hne. apply IH.
Qed.

End StoreFacts.

(** ** Claims about the dedup store *)

Section StoreClaims.
Import Store.

(** C4.  After [mark_as_processed] for a path, [is_already_processed] for
    that path is true; marking again overwrites: the table is the one a
    single (the later) call leaves, so repeating a call changes nothing, and
    the path has exactly the one new row, not a row appended to older ones;
    and in every table the store can hold no path has more than one row. *)
Theorem mark_as_processed_upsert (t : table) (p status : string) (size now : Z) :
  reachable t ->
  is_already_processed (mark_as_processed t p status size now) p = true /\
  mark_as_processed (mark_as_processed t p status size now) p status size now
    = mark_as_processed t p status size now /\
  (forall status' size' now',
      mark_as_processed (mark_as_processed t p status size now) p status' size' now'
      = mark_as_processed t p status' size' now') /\
  records (mark_as_processed t p status size now) p
    = [{| filepath := p; processed_at := now; status := status; size := size |}] /\
  (forall q, q <> p ->
      records (mark_as_processed t p status size now) q = records t q) /\
  (forall q, (List.length (records t q) <= 1)%nat) /\
  (forall q, (List.length (records (mark_as_processed t p status size now) q) <= 1)%nat).
Proof.
  intros Hr.
  assert (Hrec : records (mark_as_processed t p status size now) p
                 = [{| filepath := p; processed_at := now; status := status; size := size |}]).
  { unfold mark_as_processed.
    change p with
      (filepath {| filepath := p; processed_at := now; status := status; size := size |}) at 2.
    apply records_insert_same. }
  repeat split.
  - apply is_already_processed_records. rewrite Hrec. discriminate.
  - apply insert_twice. reflexivity.
  - intros. apply insert_twice. reflexivity.
  - exact Hrec.
  - intros q Hq. apply records_insert_other. simpl. congruence.
  - apply reachable_unique. exact Hr.
  - apply reachable_unique. constructor. exact Hr.
Qed.

Lemma mark_as_processed_upsert_witness :
  let t := mark_as_processed (init_db None) "/watch/a.mkv" "REMUX" 100 1 in
  is_already_processed (mark_as_processed t "/watch/a.mkv" "OK" 200 2) "/watch/a.mkv" = true /\
  records (mark_as_processed t "/watch/a.mkv" "OK" 200 2) "/watch/a.mkv"
    = [{| filepath := "/watch/a.mkv"; processed_at := 2; status := "OK"; size := 200 |}].
Proof.
  intros t.
  destruct (mark_as_processed_upsert t "/watch/a.mkv" "OK" 200 2) as [H1 [_ [_ [H4 _]]]].
  - unfold t. apply reach_mark. apply reach_init.
  - split; [exact H1 | exact H4].
Defined.

(** A path unknown to the store is not processed. *)
Example fresh_store_knows_nothing p : is_already_processed (init_db None) p = false.
Proof. reflexivity. Qed.

End StoreClaims.

(** ** Properties of the stabilizer *)

Section StabilizerFacts.
Import Py Env Stabilizer.

(** The loop ends without sampling once the counter is at the threshold. *)
Lemma stable_loop_done cfg p last_size stable_count samples tr :
  (stable_count <? STABILIZE_CHECKS cfg) = false ->
  stable_loop cfg p last_size stable_count samples tr = (Ret true, samples, tr).
Proof.
  intros H. destruct samples; simpl; rewrite H; reflexivity.
Qed.

(** A loop that waits for its next sample returns Vanished when that
    sample finds the file gone. *)
Lemma stable_loop_vanishes cfg p observed rest :
  forall last_size stable_count tr,
    fst (fst (stable_loop cfg p last_size stable_count (map Size observed) tr)) = Blocked ->
    fst (fst (stable_loop cfg p last_size stable_count
                (map Size observed ++ Missing :: rest) tr)) = Ret false.
Proof.
  induction observed as [|x observed IH]; intros last_size stable_count tr; simpl.
  - destruct (stable_count <? STABILIZE_CHECKS cfg); [reflexivity | discriminate].
  - destruct (stable_count <? STABILIZE_CHECKS cfg); [|discriminate].
    destruct (STABILIZE_INTERVAL cfg <? 0); [discriminate|].
    apply IH.
Qed.

(** A run of samples equal to the reference size brings the counter to
    the threshold, one sample per missing check. *)
Lemma stable_loop_equal_samples cfg p x k rest :
  0 <= STABILIZE_INTERVAL cfg ->
  forall stable_count tr,
    stable_count + Z.of_nat k = STABILIZE_CHECKS cfg ->
    fst (stable_loop cfg p x stable_count (repeat (Size x) k ++ rest)%list tr)
    = (Ret true, rest).
Proof.
  intros Hi. apply Z.ltb_ge in Hi.
  induction k as [|k IH]; intros stable_count tr Hk.
  - rewrite stable_loop_done; [reflexivity | apply Z.ltb_ge; lia].
  - cbn [repeat app stable_loop].
    replace (stable_count <? STABILIZE_CHECKS cfg) with true
      by (symmetry; apply Z.ltb_lt; lia).
    rewrite Z.eqb_refl, Hi. apply IH. lia.
Qed.

(** Stable takes [STABILIZE_CHECKS + 1] samples of one size: the first
    sets the reference, the others are the checks. *)
Lemma stable_after_one_more_sample cfg p x rest tr :
  0 <= STABILIZE_INTERVAL cfg ->
  0 < STABILIZE_CHECKS cfg ->
  x <> -1 ->
  fst (stable_loop cfg p (-1) 0
         (repeat (Size x) (S (Z.to_nat (STABILIZE_CHECKS cfg))) ++ rest)%list tr)
  = (Ret true, rest).
Proof.
  intros Hi Hc Hx. cbn [repeat app stable_loop].
  replace (0 <? STABILIZE_CHECKS cfg) with true by (symmetry; apply Z.ltb_lt; lia).
  replace (x =? -1) with false by (symmetry; apply Z.eqb_neq; exact Hx).
  replace (STABILIZE_INTERVAL cfg <? 0) with false by (symmetry; apply Z.ltb_ge; lia).
  apply stable_loop_equal_samples; lia.
Qed.

(** The loop only adds polling events to the trace. *)
Lemma stable_loop_trace cfg p samples :
  forall last_size stable_count tr,
  exists evs,
    snd (stable_loop cfg p last_size stable_count samples tr) = (evs ++ tr)%list /\
    forallb Workflow.is_polling evs = true.
Proof.
  induction samples as [|a samples IH]; intros last_size stable_count tr; simpl.
  - destruct (stable_count <? STABILIZE_CHECKS cfg); exists []; split; reflexivity.
  - destruct (stable_count <? STABILIZE_CHECKS cfg); [|exists []; split; reflexivity].
    destruct a as [n| |].
    + destruct (STABILIZE_INTERVAL cfg <? 0).
      * exists [EvGetsize p (Size n)]. split; reflexivity.
      * match goal with
        | |- context [stable_loop cfg p ?l ?c samples ?t] =>
            destruct (IH l c t) as [evs [He Hp]]
        end.
        exists (evs ++ [EvSleep (STABILIZE_INTERVAL cfg); EvGetsize p (Size n)])%list.
        split.
        -- rewrite He, <- app_assoc. reflexivity.
        -- rewrite forallb_app, Hp. reflexivity.
    + exists [EvGetsize p Missing]. split; reflexivity.
    + exists [EvGetsize p Denied]. split; reflexivity.
Qed.

End StabilizerFacts.

(** ** Claims about the stabilizer *)

Section StabilizerClaims.
Import Py Env Stabilizer Workflow.

(** C2, as the code has it.  With [STABILIZE_CHECKS = 3] the first sample
    only sets the reference size, so Stable takes four samples: a file
    sampled at [100, 100, 100, 100] is Stable, and so is one sampled at
    [100, 150, 150, 150, 150], where the second sample restarts the counter
    at zero with 150 as the reference; and whenever the loop is still
    waiting for a sample and that sample finds the file deleted, the result
    is Vanished. *)
Theorem stabilization_by_samples (p : string) (w : world) (rest : list getsize_answer) :
  STABILIZE_CHECKS (consts w) = 3 ->
  0 <= STABILIZE_INTERVAL (consts w) ->
  (let w' := set_sizes (map Size [100; 100; 100; 100] ++ rest) w in
   fst (wait_for_stable_file p w') = Ret true /\
   sizes (snd (wait_for_stable_file p w')) = rest) /\
  (let w' := set_sizes (map Size [100; 150; 150; 150; 150] ++ rest) w in
   fst (wait_for_stable_file p w') = Ret true /\
   sizes (snd (wait_for_stable_file p w')) = rest) /\
  (forall more tr,
     stable_loop (consts w) p (-1) 0 (Size 100 :: Size 150 :: more) tr =
     stable_loop (consts w) p 150 0 more
       (EvSleep (STABILIZE_INTERVAL (consts w)) :: EvGetsize p (Size 150) ::
        EvSleep (STABILIZE_INTERVAL (consts w)) :: EvGetsize p (Size 100) :: tr)) /\
  (forall observed,
     fst (wait_for_stable_file p (set_sizes (map Size observed) w)) = Blocked ->
     fst (wait_for_stable_file p (set_sizes (map Size observed ++ Missing :: rest) w))
     = Ret false).
Proof.
  intros Hc Hi.
  assert (Hneg : (STABILIZE_INTERVAL (consts w) <? 0) = false) by (apply Z.ltb_ge; exact Hi).
  assert (Hdone : forall last_size tr,
             stable_loop (consts w) p last_size 3 rest tr = (Ret true, rest, tr)).
  { intros. apply stable_loop_done. rewrite Hc. reflexivity. }
  repeat split.
  - unfold wait_for_stable_file. simpl. rewrite Hc, Hneg. simpl. rewrite Hdone. reflexivity.
  - unfold wait_for_stable_file. simpl. rewrite Hc, Hneg. simpl. rewrite Hdone. reflexivity.
  - unfold wait_for_stable_file. simpl. rewrite Hc, Hneg. simpl. rewrite Hdone. reflexivity.
  - unfold wait_for_stable_file. simpl. rewrite Hc, Hneg. simpl. rewrite Hdone. reflexivity.
  - intros more tr. simpl. rewrite Hc, Hneg. simpl. reflexivity.
  - intros observed. unfold wait_for_stable_file. simpl.
    intros Hb.
    pose proof (stable_loop_vanishes (consts w) p observed rest (-1) 0 (trace w)) as Hv.
    destruct (stable_loop (consts w) p (-1) 0 (map Size observed) (trace w))
      as [[r1 s1] t1].
    destruct (stable_loop (consts w) p (-1) 0 (map Size observed ++ Missing :: rest) (trace w))
      as [[r2 s2] t2].
    simpl in *. apply Hv. exact Hb.
Qed.

Lemma stabilization_by_samples_witness :
  let w := fresh [] [] [] [] [] in
  fst (wait_for_stable_file "/watch/a.mkv"
         (set_sizes (map Size [100; 100; 100; 100] ++ [Size 100]) w)) = Ret true /\
  fst (wait_for_stable_file "/watch/a.mkv"
         (set_sizes (map Size [100; 150; 150] ++ Missing :: [Size 100]) w)) = Ret false.
Proof.
  intros w.
  destruct (stabilization_by_samples "/watch/a.mkv" w [Size 100])
    as [[H1 _] [_ [_ H4]]].
  - reflexivity.
  - simpl. lia.
  - split; [exact H1|]. apply (H4 [100; 150; 150]). reflexivity.
Defined.

(** Three samples [100, 100, 100] do not make the file Stable with
    [STABILIZE_CHECKS = 3]: the counter is at 2 and the loop wants a fourth
    sample; if the file is deleted before it, the answer is Vanished.  The
    same holds after [100, 150, 150, 150]. *)
Lemma three_samples_are_not_stable :
  let w := fresh [] [] [] [] [] in
  fst (wait_for_stable_file "/watch/a.mkv" (set_sizes (map Size [100; 100; 100]) w))
    <> Ret true /\
  fst (wait_for_stable_file "/watch/a.mkv" (set_sizes (map Size [100; 100; 100]) w))
    = Blocked /\
  fst (wait_for_stable_file "/watch/a.mkv"
         (set_sizes (map Size [100; 100; 100] ++ [Missing]) w)) = Ret false /\
  fst (wait_for_stable_file "/watch/a.mkv" (set_sizes (map Size [100; 150; 150; 150]) w))
    = Blocked /\
  fst (wait_for_stable_file "/watch/a.mkv"
         (set_sizes (map Size [100; 150; 150; 150] ++ [Missing]) w)) = Ret false.
Proof.
  repeat split; try reflexivity. discriminate.
Qed.

End StabilizerClaims.

(** ** Properties of the workflow *)

Section WorkflowFacts.
Import Py Env Stabilizer Workflow.

Local Arguments Classifier.classify : simpl never.
Local Arguments format_name_of : simpl never.
Local Arguments Embed.build_embed : simpl never.
Local Arguments truthy : simpl never.
Local Arguments stable_loop : simpl never.
Local Arguments Store.mark_as_processed : simpl never.
Local Arguments Store.is_already_processed : simpl never.
Local Arguments Z.add : simpl never.

Lemma polling_is_quiet evs :
  forallb is_polling evs = true -> forallb quiet evs = true.
Proof.
  induction evs as [|e evs IH]; simpl; [reflexivity|].
  intros H. apply andb_true_iff in H as [He Hr].
  rewrite (IH Hr). destruct e; try discriminate; reflexivity.
Qed.

Lemma polling_in evs e :
  forallb is_polling evs = true -> In e evs -> is_polling e = true.
Proof.
  intros H Hin. rewrite forallb_forall in H. auto.
Qed.

Lemma polling_head polled l e :
  forallb is_polling polled = true ->
  hd_error (polled ++ l)%list = Some e ->
  is_polling e = true \/ hd_error l = Some e.
Proof.
  destruct polled as [|e0 polled]; simpl; intros Hp He; [right; exact He|].
  left. inversion He; subst. apply andb_true_iff in Hp. tauto.
Qed.

Lemma dedup_check_passes p w :
  Store.is_already_processed (db w) p = false ->
  store_up w = true ->
  fst (dedup_check p w) = Ret true.
Proof.
  unfold store_up. intros Hnew Hup.
  unfold dedup_check, is_already_processed, store_access, bind, log, ret, emit.
  simpl. destruct (store_faults w) as [|[|] rest]; try discriminate; simpl;
    rewrite Hnew; reflexivity.
Qed.

End WorkflowFacts.

(** Running the workflow symbolically: unfold the calls, split on the next
    answer of the environment. *)
Ltac unfold_run :=
  unfold Workflow.analyze_file, Workflow.dedup_check, Workflow.process_new_file,
    Workflow.is_already_processed, Stabilizer.wait_for_stable_file,
    Workflow.process_stable_file, Workflow.get_media_info, Workflow.run_ffprobe,
    Workflow.getsize, Workflow.send_ntfy_notification,
    Workflow.send_discord_notification, Workflow.post, Workflow.mark_as_processed,
    Workflow.store_access, Workflow.datetime_now, Env.try_except, Env.bind, Env.ret,
    Env.log, Env.lift, Env.emit.

Ltac run_step :=
  match goal with
  | H : ?x = _ |- context [match ?x with _ => _ end] => rewrite H
  | |- context [Stabilizer.stable_loop ?c ?p ?l ?n ?s ?t] =>
      let polled := fresh "polled" in
      let He := fresh "He" in
      let Hp := fresh "Hpolled" in
      destruct (stable_loop_trace c p s l n t) as [polled [He Hp]];
      destruct (Stabilizer.stable_loop c p l n s t) as [[? ?] ?];
      simpl in He; subst
  | |- context [match ?x with _ => _ end] =>
      lazymatch x with
      | context [match _ with _ => _ end] => fail
      | _ => destruct x eqn:?
      end
  end.

Ltac run_all := unfold_run; repeat (simpl; run_step); simpl.

(** The events a trace [l] has on top of an older trace [t]. *)
Ltac prefix_of l t :=
  lazymatch l with
  | t => constr:(@nil Env.event)
  | (?e ++ ?l')%list => let r := prefix_of l' t in constr:((e ++ r)%list)
  | ?a :: ?l' => let r := prefix_of l' t in constr:(a :: r)
  end.

Ltac give_events :=
  lazymatch goal with
  | |- exists evs, ?l = (evs ++ ?t)%list /\ _ =>
      let e := prefix_of l t in
      exists e; split; [simpl; rewrite <- ?app_assoc; reflexivity|]
  end.

(** Where an event of a symbolic run can be. *)
Ltac split_in :=
  repeat match goal with
         | H : In _ (_ ++ _)%list |- _ => apply in_app_or in H
         | H : _ \/ _ |- _ => destruct H
         | H : In _ (_ :: _) |- _ => simpl in H
         | H : In _ [] |- _ => contradiction H
         | H : False |- _ => contradiction H
         | H : _ = Env.EvPost _ _ _ |- _ =>
             first [discriminate H | inversion H; subst; clear H]
         | H : In ?e ?polled, Hp : forallb Workflow.is_polling ?polled = true |- _ =>
             let Hx := fresh in
             pose proof (polling_in polled e Hp H) as Hx; discriminate Hx
         end.

Ltac find_in := simpl; first [left; reflexivity | right; find_in].

(** The events before the probe of a symbolic run. *)
Ltac before_probe l :=
  lazymatch l with
  | Env.EvProbe _ _ :: _ => constr:(@nil Env.event)
  | ?a :: ?l' => let r := before_probe l' in constr:(a :: r)
  end.

(** The flags of the configuration, case by case, in a hypothesis. *)
Ltac flags_in H :=
  repeat match type of H with
         | context [Env.enable_ntfy ?c] => destruct (Env.enable_ntfy c); simpl in *
         | context [Env.enable_discord ?c] => destruct (Env.enable_discord c); simpl in *
         | context [Workflow.is_set ?x] => destruct (Workflow.is_set x); simpl in *
         end.

(** A test holds of all events of a symbolic run. *)
Ltac all_events :=
  simpl; rewrite ?forallb_app; simpl;
  repeat match goal with
         | H : forallb Workflow.is_polling ?l = true |- context [forallb Workflow.quiet ?l] =>
             rewrite (polling_is_quiet l H)
         end;
  reflexivity.

(** ** Claims about the workflow *)

Section WorkflowClaims.
Import Py Env Stabilizer Workflow.

Local Arguments Classifier.classify : simpl never.
Local Arguments format_name_of : simpl never.
Local Arguments Embed.build_embed : simpl never.
Local Arguments truthy : simpl never.
Local Arguments stable_loop : simpl never.
Local Arguments Store.mark_as_processed : simpl never.
Local Arguments Store.is_already_processed : simpl never.
Local Arguments Z.add : simpl never.

(** C6.  A run for a path that already has a record stops at the dedup
    check: it polls no size, sleeps not, probes nothing, posts nothing and
    writes nothing; the answers of the environment are all still to come and
    the store is as it was. *)
Theorem processed_path_is_skipped (p : string) (w : world) :
  Store.is_already_processed (db w) p = true ->
  exists evs,
    trace (snd (analyze_file p w)) = (evs ++ trace w)%list /\
    forallb idle evs = true /\
    db (snd (analyze_file p w)) = db w /\
    sizes (snd (analyze_file p w)) = sizes w /\
    probes (snd (analyze_file p w)) = probes w /\
    posts (snd (analyze_file p w)) = posts w.
Proof.
  intros Hdone. run_all; try congruence; give_events; repeat split.
Qed.

Lemma processed_path_is_skipped_witness :
  let w := fresh (Store.mark_as_processed [] "/watch/a.mkv" "OK" 100 0) []
                 (map Size [100; 100; 100; 100; 100])
                 [Exited 0 (Some (Metadata.media []))] [Status 200; Status 204] in
  exists evs,
    trace (snd (analyze_file "/watch/a.mkv" w)) = (evs ++ trace w)%list /\
    forallb idle evs = true /\
    db (snd (analyze_file "/watch/a.mkv" w)) = db w /\
    sizes (snd (analyze_file "/watch/a.mkv" w)) = sizes w /\
    probes (snd (analyze_file "/watch/a.mkv" w)) = probes w /\
    posts (snd (analyze_file "/watch/a.mkv" w)) = posts w.
Proof.
  intros w. apply (processed_path_is_skipped "/watch/a.mkv" w). reflexivity.
Defined.

(** C5.  A run that ends in FileVanished or ProbeFailed has written no
    record: the store is as it was, and a later run for the path, with the
    store available, passes the dedup check again.  In every run the record
    write, when there is one, is the last step: after it only the line that
    reports the processed file is printed, and nothing before it wrote. *)
Theorem failed_run_writes_no_record (p : string) (w : world) :
  exists evs,
    trace (snd (analyze_file p w)) = (evs ++ trace w)%list /\
    (ends_in evs (Disappeared p) \/ ends_in evs (NoMediaInfo p) ->
       db (snd (analyze_file p w)) = db w /\
       forallb quiet evs = true /\
       forall w2, db w2 = db (snd (analyze_file p w)) -> store_up w2 = true ->
                  fst (dedup_check p w2) = Ret true) /\
    ((db (snd (analyze_file p w)) = db w /\ forallb quiet evs = true) \/
     (exists row earlier,
        evs = EvLog (Processed p (Store.status row)) :: EvUpsert row :: earlier /\
        forallb quiet earlier = true /\
        Store.filepath row = p /\
        db (snd (analyze_file p w)) = Store.insert_or_replace (db w) row /\
        fst (analyze_file p w) = Ret tt)).
Proof.
  run_all; give_events; (split; [intros [Hend|Hend] | ]).
  all: unfold ends_in in *.
  all: try (simpl in Hend; discriminate Hend).
  all: try (exfalso; simpl in Hend;
            match type of Hend with
            | hd_error (?pl ++ ?l)%list = Some ?e =>
                destruct (polling_head pl l e ltac:(assumption) Hend) as [Hx|Hx];
                discriminate Hx
            end).
  all: try (split; [reflexivity | split; [all_events|]];
            intros w2 Hdb Hup; apply dedup_check_passes; [rewrite Hdb; assumption | exact Hup]).
  all: try (left; split; [reflexivity | all_events]).
  all: right;
       match goal with
       | |- exists row earlier, (_ :: EvUpsert ?r :: ?e) = _ /\ _ => exists r, e
       end;
       split; [reflexivity | split; [all_events | repeat split]].
Qed.

Lemma failed_run_writes_no_record_witness :
  let w := fresh [] [] (map Size [100; 100; 100; 100; 100]) [Exited 1 None] [] in
  db (snd (analyze_file "/watch/a.mkv" w)) = db w /\
  forall w2, db w2 = db (snd (analyze_file "/watch/a.mkv" w)) -> store_up w2 = true ->
             fst (dedup_check "/watch/a.mkv" w2) = Ret true.
Proof.
  intros w.
  destruct (failed_run_writes_no_record "/watch/a.mkv" w) as [evs [Htr [Hfail _]]].
  assert (Hevs : ends_in evs (NoMediaInfo "/watch/a.mkv")).
  { apply (f_equal (@hd_error event)) in Htr. unfold ends_in.
    destruct evs as [|e evs]; [discriminate Htr | exact (eq_sym Htr)]. }
  destruct (Hfail (or_intror Hevs)) as [Hdb [_ Hnext]].
  split; [exact Hdb | exact Hnext].
Defined.

(** C7.  In a run whose posts the environment answers (one answer for
    each channel that is switched on), a delivery that fails on one channel
    (an exception, or a response outside 2xx) is dealt with inside that
    channel's dispatch: a line is printed, nothing is raised and the run
    comes to its end; the other channel, when it is switched on, gets its
    post with the same status, unless it is the rich channel and its own
    embed cannot be built from the file's data, which prints that channel's
    error line; and the record is written (the path then has that one row)
    unless the store itself refuses the write. *)
Theorem notification_failure_is_contained (p : string) (w : world) :
  (switched_on (conf w) <= List.length (posts w))%nat ->
  exists evs,
    trace (snd (analyze_file p w)) = (evs ++ trace w)%list /\
    forall ch st a,
      In (EvPost ch st a) evs ->
      delivery_failed a = true ->
      In (EvLog (match a with
                 | Refused => NotificationError ch
                 | Status code => NotificationSent ch code
                 end)) evs /\
      (channel_on (other ch) (conf w) = true ->
         (exists a', In (EvPost (other ch) st a') evs) \/
         (other ch = Discord /\
          In (EvLog (NotificationError Discord)) evs /\
          exists code media_info size e later earlier,
            evs = (later ++ EvProbe p (Exited code (Some media_info))
                         :: EvGetsize p (Size size) :: earlier)%list /\
            Embed.build_embed st size media_info = Exc e)) /\
      fst (analyze_file p w) = Ret tt /\
      ((exists row,
          In (EvUpsert row) evs /\ Store.filepath row = p /\ Store.status row = st /\
          Store.records (db (snd (analyze_file p w))) p = [row]) \/
       In EvStoreFault evs).
Proof.
  intros Hlen. run_all; give_events; intros chan stat ans Hin Hfail; split_in.
  all: try (exfalso; unfold switched_on, channel_on in Hlen;
            repeat match goal with
                   | H : posts _ = _ |- _ => rewrite H in Hlen
                   end;
            flags_in Hlen; simpl in Hlen; try discriminate; lia).
  all: (split; [find_in|]); (split; [|split; [reflexivity|]]).
  all: try (simpl; intros Hon;
            first
              [ exfalso; flags_in Hon; simpl in *; congruence
              | left; eexists; find_in
              | right; split; [reflexivity|]; split; [find_in|];
                match goal with
                | Hb : Embed.build_embed _ _ _ = Exc ?e
                  |- exists code media_info size e later earlier, ?l = _ /\ _ =>
                    let la := before_probe l in
                    lazymatch l with
                    | context [EvProbe _ (Exited ?c (Some ?m)) :: EvGetsize _ (Size ?n) :: ?rest] =>
                        exists c, m, n, e, la, rest
                    end
                end;
                split; [reflexivity | assumption] ]).
  all: try (right; find_in).
  all: left; eexists; split; [find_in|]; repeat split;
       match goal with
       | |- Store.records (Store.mark_as_processed ?t ?q ?s ?n ?c) ?q = _ =>
           apply (records_insert_same t
                    {| Store.filepath := q; Store.processed_at := c;
                       Store.status := s; Store.size := n |})
       end.
Qed.

Lemma notification_failure_is_contained_witness :
  let w := fresh [] [] (map Size [100; 100; 100; 100; 100])
                 [Exited 0 (Some (Metadata.media [Metadata.stream "audio" (Some "eng")]))]
                 [Refused; Status 204] in
  In (EvLog (NotificationError Ntfy)) (trace (snd (analyze_file "/watch/a.mkv" w))) /\
  In (EvPost Discord "OK" (Status 204)) (trace (snd (analyze_file "/watch/a.mkv" w))) /\
  fst (analyze_file "/watch/a.mkv" w) = Ret tt /\
  Store.is_already_processed (db (snd (analyze_file "/watch/a.mkv" w))) "/watch/a.mkv" = true.
Proof.
  intros w.
  destruct (notification_failure_is_contained "/watch/a.mkv" w) as [evs [Htr H]].
  - apply le_n.
  - rewrite app_nil_r in Htr. rewrite Htr.
    destruct (H Ntfy "OK" Refused) as [Hlog [Hother [Hret Hrec]]].
    + rewrite <- Htr. vm_compute. tauto.
    + reflexivity.
    + split; [exact Hlog|]. split; [|split; [exact Hret | reflexivity]].
      rewrite <- Htr. vm_compute. tauto.
Defined.

(** The rich channel fails, the simple one has been posted to and the
    record is written. *)
Example discord_failure_does_not_stop_the_record :
  let w := fresh [] [] (map Size [100; 100; 100; 100; 100])
                 [Exited 0 (Some (Metadata.media [Metadata.stream "audio" (Some "eng")]))]
                 [Status 200; Refused] in
  firstn 6 (trace (snd (analyze_file "/watch/a.mkv" w))) =
  [EvLog (Processed "/watch/a.mkv" "OK");
   EvUpsert {| Store.filepath := "/watch/a.mkv"; Store.processed_at := 0;
               Store.status := "OK"; Store.size := 100 |};
   EvLog (NotificationError Discord); EvPost Discord "OK" Refused;
   EvLog (NotificationSent Ntfy 200); EvPost Ntfy "OK" (Status 200)].
Proof. reflexivity. Qed.

(** A duration that is no number: the embed cannot be built, the webhook
    is not posted to, and the simple channel and the record are as
    ever. *)
Example unbuildable_embed_is_not_posted :
  let info := JObj [("format", JObj [("format_name", JStr "matroska,webm");
                                     ("duration", JStr "N/A")])] in
  let w := fresh [] [] (map Size [100; 100; 100; 100; 100])
                 [Exited 0 (Some info)] [Status 200; Status 204] in
  firstn 5 (trace (snd (analyze_file "/watch/a.mkv" w))) =
  [EvLog (Processed "/watch/a.mkv" "OK");
   EvUpsert {| Store.filepath := "/watch/a.mkv"; Store.processed_at := 0;
               Store.status := "OK"; Store.size := 100 |};
   EvLog (NotificationError Discord);
   EvLog (NotificationSent Ntfy 200); EvPost Ntfy "OK" (Status 200)] /\
  posts (snd (analyze_file "/watch/a.mkv" w)) = [Status 204].
Proof. split; reflexivity. Qed.

(** The same with the roles swapped: the simple channel answers 503 and
    the rich one is still posted. *)
Example ntfy_failure_does_not_stop_discord :
  let w := fresh [] [] (map Size [100; 100; 100; 100; 100])
                 [Exited 0 (Some (Metadata.media [Metadata.stream "audio" None]))]
                 [Status 503; Status 204] in
  firstn 6 (trace (snd (analyze_file "/watch/a.mkv" w))) =
  [EvLog (Processed "/watch/a.mkv" "REMUX");
   EvUpsert {| Store.filepath := "/watch/a.mkv"; Store.processed_at := 0;
               Store.status := "REMUX"; Store.size := 100 |};
   EvLog (NotificationSent Discord 204); EvPost Discord "REMUX" (Status 204);
   EvLog (NotificationSent Ntfy 503); EvPost Ntfy "REMUX" (Status 503)].
Proof. reflexivity. Qed.

(** C8, as the code has it.  Malformed output and a failure to run the tool
    give ProbeFailed ([None]) whatever the return code; the return code
    itself is not looked at: output that parses as JSON is returned as the
    metadata after any exit; and no exception leaves [get_media_info]. *)
Theorem probe_failed_cases (p : string) (w : world) (a : probe_answer)
    (rest : list probe_answer) :
  probes w = a :: rest ->
  (a = SpawnFailed -> fst (get_media_info p w) = Ret JNull) /\
  (forall code, a = Exited code None -> fst (get_media_info p w) = Ret JNull) /\
  (forall code parsed,
     a = Exited code (Some parsed) -> fst (get_media_info p w) = Ret parsed) /\
  (forall e, fst (get_media_info p w) <> Raise e).
Proof.
  intros Hp. unfold get_media_info, run_ffprobe, try_except, bind, log, ret, emit.
  rewrite Hp. repeat split.
  - intros ->. reflexivity.
  - intros code ->. reflexivity.
  - intros code parsed ->. reflexivity.
  - intros e. destruct a as [|code [parsed|]]; simpl; discriminate.
Qed.

Lemma probe_failed_cases_witness :
  let w := fresh [] [] [] [Exited 0 None] [] in
  fst (get_media_info "/watch/a.mkv" w) = Ret JNull.
Proof.
  intros w.
  destruct (probe_failed_cases "/watch/a.mkv" w (Exited 0 None) [] eq_refl)
    as [_ [Hbad _]].
  apply (Hbad 0). reflexivity.
Defined.

(** A tool that exits with code 1 after writing a JSON document is not a
    failed probe: the document comes back as metadata, and the workflow
    goes on to classify, notify and record. *)
Lemma nonzero_exit_is_not_probe_failed :
  let info := Metadata.media [Metadata.stream "audio" (Some "eng")] in
  let w := fresh [] [] (map Size [100; 100; 100; 100; 100]) [Exited 1 (Some info)]
                 [Status 200; Status 204] in
  fst (get_media_info "/watch/a.mkv" w) = Ret info /\
  fst (get_media_info "/watch/a.mkv" w) <> Ret JNull /\
  Store.records (db (snd (analyze_file "/watch/a.mkv" w))) "/watch/a.mkv" =
  [{| Store.filepath := "/watch/a.mkv"; Store.processed_at := 0;
      Store.status := "OK"; Store.size := 100 |}].
Proof.
  repeat split. discriminate.
Qed.

(** C9 on the code: an error of the store at the dedup check, and an error
    of [os.path.getsize] other than a missing file during stabilization,
    are raised by [analyze_file] to its caller; nothing is printed for
    them. *)
Theorem errors_before_the_try_escape :
  let sz := map Size [100; 100; 100; 100; 100] in
  let pr := [Exited 0 (Some (Metadata.media []))] in
  analyze_file "/watch/a.mkv" (fresh [] [true] sz pr []) =
    (Raise OperationalError,
     set_trace [EvStoreFault; EvLog (Analyzing "/watch/a.mkv")] (fresh [] [] sz pr [])) /\
  fst (analyze_file "/watch/a.mkv" (fresh [] [] [Size 100; Denied] pr [])) = Raise OSError /\
  hd_error (trace (snd (analyze_file "/watch/a.mkv" (fresh [] [] [Size 100; Denied] pr []))))
    = Some (EvGetsize "/watch/a.mkv" Denied).
Proof.
  repeat split.
Qed.

(** The same errors inside the [try] block are caught and printed. *)
Example errors_inside_the_try_are_caught :
  let sz := map Size [100; 100; 100; 100; 100] in
  let pr := [Exited 0 (Some (Metadata.media []))] in
  fst (analyze_file "/watch/a.mkv" (fresh [] [false; true] sz pr [Status 200; Status 204]))
    = Ret tt /\
  hd_error (trace (snd (analyze_file "/watch/a.mkv"
                     (fresh [] [false; true] sz pr [Status 200; Status 204]))))
    = Some (EvLog (ErrorAnalyzing "/watch/a.mkv" OperationalError)) /\
  fst (analyze_file "/watch/a.mkv" (fresh [] [] (map Size [100; 100; 100; 100] ++ [Denied]) pr []))
    = Ret tt /\
  hd_error (trace (snd (analyze_file "/watch/a.mkv"
                     (fresh [] [] (map Size [100; 100; 100; 100] ++ [Denied]) pr []))))
    = Some (EvLog (ErrorAnalyzing "/watch/a.mkv" OSError)).
Proof.
  repeat split.
Qed.

(** Where an exception of [analyze_file] can come from: the dedup check or
    the stabilization, the two calls in front of the [try]. *)
Lemma analyze_file_raises_before_try (p : string) (w : world) (e : exn) :
  fst (analyze_file p w) = Raise e ->
  fst (dedup_check p w) = Raise e \/
  (fst (dedup_check p w) = Ret true /\
   fst (wait_for_stable_file p
          (emit (EvLog (WaitingToStabilize p)) (snd (dedup_check p w)))) = Raise e).
Proof.
  unfold analyze_file, process_new_file, bind at 1 2 3.
  destruct (dedup_check p w) as [[[|]| |] w1]; simpl;
    try discriminate; try (intuition congruence).
  unfold log at 1. simpl.
  destruct (wait_for_stable_file p (emit (EvLog (WaitingToStabilize p)) w1))
    as [[[|]| |] w2]; simpl; try discriminate; try (intuition congruence).
  unfold try_except.
  destruct (process_stable_file p w2) as [[|e'|] w3]; simpl; discriminate.
Qed.

End WorkflowClaims.

(** ** Properties of the pool *)

Section PoolFacts.
Import Py Env Stabilizer Workflow Pool.

Local Arguments Classifier.classify : simpl never.
Local Arguments format_name_of : simpl never.
Local Arguments Embed.build_embed : simpl never.
Local Arguments truthy : simpl never.
Local Arguments stable_loop : simpl never.
Local Arguments Store.mark_as_processed : simpl never.
Local Arguments Store.is_already_processed : simpl never.
Local Arguments Store.records : simpl never.
Local Arguments Z.add : simpl never.

Lemma polling_no_processed_line p evs :
  forallb is_polling evs = true -> existsb (is_processed_line p) evs = false.
Proof.
  induction evs as [|e evs IH]; simpl; [reflexivity|].
  intros H. apply andb_true_iff in H as [He Hr].
  rewrite (IH Hr). destruct e; try discriminate; reflexivity.
Qed.

Lemma store_effect_refl p w : store_effect p w w.
Proof.
  exists []. split; [reflexivity|]. left. split; reflexivity.
Qed.

Lemma store_effect_trans p w1 w2 w3 :
  store_effect p w1 w2 -> store_effect p w2 w3 -> store_effect p w1 w3.
Proof.
  intros [e1 [H1 C1]] [e2 [H2 C2]].
  exists (e2 ++ e1)%list. split; [rewrite H2, H1, app_assoc; reflexivity|].
  rewrite existsb_app.
  destruct C2 as [[R2 N2]|[R2 N2]]; rewrite N2; simpl.
  - destruct C1 as [[R1 N1]|[R1 N1]]; rewrite N1; [left|right];
      (split; [congruence | reflexivity]).
  - right. split; [exact R2 | reflexivity].
Qed.

Lemma dedup_check_effect p w : store_effect p w (snd (dedup_check p w)).
Proof.
  unfold store_effect. run_all; give_events; left; split; reflexivity.
Qed.

Lemma process_new_file_effect p w : store_effect p w (snd (process_new_file p w)).
Proof.
  unfold store_effect. run_all; give_events.
  all: try (left; split; [reflexivity|];
            simpl; rewrite ?existsb_app; simpl;
            repeat match goal with
                   | H : forallb is_polling ?l = true |- context [existsb _ ?l] =>
                       rewrite (polling_no_processed_line p l H)
                   end; reflexivity).
  all: right; split; [|simpl; rewrite String.eqb_refl; reflexivity].
  all: match goal with
       | |- context [Store.mark_as_processed ?t ?q ?s ?n ?c] =>
           rewrite (records_insert_same t
                      {| Store.filepath := q; Store.processed_at := c;
                         Store.status := s; Store.size := n |} : 
                    Store.records (Store.mark_as_processed t q s n c) q = _)
       end; reflexivity.
Qed.

Lemma advance_effect p k w :
  on_path p k ->
  on_path p (fst (advance k w)) /\ store_effect p w (snd (advance k w)).
Proof.
  destruct k as [q|q|r]; simpl; intros Hk.
  - subst q. pose proof (dedup_check_effect p w) as H.
    destruct (dedup_check p w) as [[[|]| |] w']; simpl in *; auto.
  - subst q. pose proof (process_new_file_effect p w) as H.
    destruct (process_new_file p w) as [r w']; simpl in *; auto.
  - split; [exact I | apply store_effect_refl].
Qed.

Lemma run_effect p schedule :
  forall s,
    on_path p (first s) -> on_path p (second s) ->
    store_effect p (shared s) (shared (run schedule s)).
Proof.
  induction schedule as [|t schedule IH]; intros s H1 H2; simpl.
  - apply store_effect_refl.
  - destruct t; simpl.
    + destruct (advance_effect p (first s) (shared s) H1) as [Hk He].
      destruct (advance (first s) (shared s)) as [k w'] eqn:Ha. simpl in *.
      eapply store_effect_trans; [exact He|].
      apply (IH {| first := k; second := second s; shared := w' |}); assumption.
    + destruct (advance_effect p (second s) (shared s) H2) as [Hk He].
      destruct (advance (second s) (shared s)) as [k w'] eqn:Ha. simpl in *.
      eapply store_effect_trans; [exact He|].
      apply (IH {| first := first s; second := k; shared := w' |}); assumption.
Qed.

(** One worker running alone is [analyze_file]. *)
Lemma advance_twice_is_analyze_file p w :
  let (k1, w1) := advance (Queued p) w in
  let (k2, w2) := advance k1 w1 in
  k2 = Finished (fst (analyze_file p w)) /\ w2 = snd (analyze_file p w).
Proof.
  unfold analyze_file, bind. simpl.
  destruct (dedup_check p w) as [[[|]| |] w1]; simpl; try (split; reflexivity).
  destruct (process_new_file p w1) as [r w2]. split; reflexivity.
Qed.

End PoolFacts.

(** ** Claims about the pool *)

Section PoolClaims.
Import Py Env Stabilizer Workflow Pool Scenario.

(** C3, as the code has it.  For a path with no record, under every
    schedule of two submitted calls for the path, as soon as a call has
    reported the path processed the store holds exactly one record for it,
    and it holds none before; a single call is the schedule in which one
    worker moves twice. *)
Theorem racing_submits_leave_one_record (p : string) (w : world) (schedule : list turn) :
  Store.records (db w) p = [] ->
  (exists evs,
     trace (shared (run schedule (submit_twice p w))) = (evs ++ trace w)%list /\
     (existsb (is_processed_line p) evs = true ->
        List.length (Store.records (db (shared (run schedule (submit_twice p w)))) p)
        = 1%nat) /\
     (existsb (is_processed_line p) evs = false ->
        Store.records (db (shared (run schedule (submit_twice p w)))) p = [])) /\
  first (run [First; First] (submit_twice p w)) = Finished (fst (analyze_file p w)) /\
  shared (run [First; First] (submit_twice p w)) = snd (analyze_file p w).
Proof.
  intros Hnew. split.
  - destruct (run_effect p schedule (submit_twice p w) eq_refl eq_refl)
      as [evs [Htr Hc]].
    exists evs. split; [exact Htr|]. simpl in Hc.
    destruct Hc as [[Hr Hn]|[Hr Hn]]; rewrite Hn; split; intros; try discriminate;
      try assumption.
    rewrite Hr. exact Hnew.
  - pose proof (advance_twice_is_analyze_file p w) as H.
    cbn [run step submit_twice first second shared].
    destruct (advance (Queued p) w) as [k1 w1].
    cbn [first second shared].
    destruct (advance k1 w1) as [k2 w2]. exact H.
Qed.

Lemma racing_submits_leave_one_record_witness :
  List.length (Store.records
                 (db (shared (run [First; Second; First; Second]
                                  (submit_twice "/watch/a.mkv" race_world))))
                 "/watch/a.mkv") = 1%nat.
Proof.
  destruct (racing_submits_leave_one_record "/watch/a.mkv" race_world
              [First; Second; First; Second] eq_refl) as [[evs [Htr [Hone _]]] _].
  apply Hone.
  rewrite app_nil_r in Htr. rewrite <- Htr. reflexivity.
Defined.

(** Two calls racing on one path: when both run their dedup check before
    either has written, both pass it, and the file is probed twice, each
    channel is posted to twice and the record is written twice. *)
Lemma racing_submits_both_run_the_pipeline :
  let s := run [First; Second; First; Second] (submit_twice "/watch/a.mkv" race_world) in
  first s = Finished (Ret tt) /\
  second s = Finished (Ret tt) /\
  count passed_check (trace (shared s)) = 2%nat /\
  count is_probe (trace (shared s)) = 2%nat /\
  count is_post (trace (shared s)) = 4%nat /\
  count is_upsert (trace (shared s)) = 2%nat.
Proof.
  repeat split.
Qed.

End PoolClaims.
(** ** More about the classifier *)

Section ClassifierExtras.
Import Py Classifier Metadata Shape.

Lemma count_if_succeeds cond items :
  (exists n, count_if cond items = Val n) <->
  (forall s, In s items -> exists b, cond s = Val b).
Proof.
  induction items as [|s rest IH]; simpl.
  - split; [intros _ s [] | intros _; eexists; reflexivity].
  - split.
    + intros [n Hn] s' [<-|Hin].
      * destruct (cond s) as [b|e]; [eexists; reflexivity | discriminate].
      * destruct (cond s) as [b|e]; [|discriminate]. simpl in Hn.
        destruct (count_if cond rest) as [m|e] eqn:Hm; [|discriminate].
        apply (proj1 IH); [eexists; reflexivity | exact Hin].
    + intros H. destruct (H s (or_introl eq_refl)) as [b Hb]. rewrite Hb. simpl.
      destruct (proj2 IH (fun s' Hs' => H s' (or_intror Hs'))) as [m Hm].
      rewrite Hm. simpl. eexists; reflexivity.
Qed.

Lemma missing_language_succeeds kind s :
  (exists b, missing_language kind s = Val b) <-> readable_for kind s = true.
Proof.
  unfold missing_language, readable_for, tags_usable.
  destruct s as [| | | | | |fields]; simpl;
    try (split; [intros [? Hb]; discriminate Hb | discriminate]).
  destruct (lookup "codec_type" fields) as [ct|]; simpl.
  - destruct (eq_str ct kind); [|split; [reflexivity | eexists; reflexivity]].
    destruct (lookup "tags" fields) as [[| | | | | |tags]|]; simpl;
      try (split; [intros [? Hb]; discriminate Hb | discriminate]).
    + destruct (lookup "language" tags); simpl;
        (split; [reflexivity | eexists; reflexivity]).
    + split; [reflexivity | eexists; reflexivity].
  - split; [reflexivity | eexists; reflexivity].
Qed.

Lemma count_missing_succeeds kind media_info :
  (exists n, count_missing kind media_info = Val n) <->
  match media_info with
  | JObj fields =>
      match lookup "streams" fields with
      | None => True
      | Some (JArr items) => forallb (readable_for kind) items = true
      | Some (JObj kv) => kv = []
      | Some (JStr s) => s = ""
      | Some _ => False
      end
  | _ => False
  end.
Proof.
  unfold count_missing.
  destruct media_info as [| | | | | |fields]; simpl;
    try (split; [intros [? Hb]; discriminate Hb | contradiction]).
  destruct (lookup "streams" fields) as [[| | | |s|items|kv]|]; simpl;
    try (split; [intros [? Hb]; discriminate Hb | contradiction]).
  - destruct s as [|c s]; simpl.
    + split; [reflexivity | eexists; reflexivity].
    + split; [intros [? Hb]; discriminate Hb | discriminate].
  - rewrite count_if_succeeds, forallb_forall.
    split; intros H s Hs; apply missing_language_succeeds; auto.
  - destruct kv as [|[k v] kv]; simpl.
    + split; [reflexivity | eexists; reflexivity].
    + split; [intros [? Hb]; discriminate Hb | discriminate].
  - split; [trivial | eexists; reflexivity].
Qed.

(** Whatever JSON the probe printed, a status that [classify] returns is
    one of the four labels. *)
Theorem classify_returns_a_label (media_info : json) (size : Z) (status : string) :
  classify media_info size = Val status -> In status labels.
Proof.
  unfold classify.
  destruct (count_missing "audio" media_info) as [a|]; [|discriminate]. simpl.
  destruct (count_missing "subtitle" media_info) as [b|]; [|discriminate]. simpl.
  intros H. inversion H.
  destruct (size >? SIZE_LIMIT), ((a >? 0) || (b >? 0)); simpl; auto.
Qed.

Lemma classify_returns_a_label_witness :
  In "REMUX" labels.
Proof.
  apply (classify_returns_a_label
           (JObj [("streams", JArr [JObj [("codec_type", JStr "subtitle")]])]) 5).
  reflexivity.
Defined.

(** [classify] returns a status exactly for the records both counting
    passes can read: an object whose [streams] is absent, or a list of
    objects in which every audio and subtitle stream has an object (or
    nothing) for [tags], or an empty string or dict; on every other value
    it raises, whatever the size. *)
Theorem classify_succeeds_iff (media_info : json) (size : Z) :
  (exists status, classify media_info size = Val status) <->
  classifiable media_info = true.
Proof.
  assert (Hboth :
    (exists status, classify media_info size = Val status) <->
    (exists a, count_missing "audio" media_info = Val a) /\
    (exists b, count_missing "subtitle" media_info = Val b)).
  { unfold classify.
    destruct (count_missing "audio" media_info) as [a|]; simpl.
    - destruct (count_missing "subtitle" media_info) as [b|]; simpl.
      + split; [intros _; split; eexists; reflexivity | intros _; eexists; reflexivity].
      + split; [intros [? Hs]; discriminate Hs | intros [_ [? Hb]]; discriminate Hb].
    - split; [intros [? Hs]; discriminate Hs | intros [[? Ha] _]; discriminate Ha]. }
  rewrite Hboth, !count_missing_succeeds. unfold classifiable.
  destruct media_info as [| | | | | |fields]; try (split; [tauto | discriminate]).
  destruct (lookup "streams" fields) as [[| | | |s|items|kv]|];
    try (split; [tauto | discriminate]).
  - rewrite String.eqb_eq. tauto.
  - unfold stream_readable. rewrite !forallb_forall. split.
    + intros [Ha Hb] s Hs. rewrite (Ha s Hs), (Hb s Hs). reflexivity.
    + intros H. split; intros s Hs; specialize (H s Hs);
        apply andb_true_iff in H; tauto.
  - destruct kv; split; try tauto; try discriminate. intros [H _]. discriminate.
  - tauto.
Qed.

Lemma classify_succeeds_iff_witness :
  (exists status,
     classify (JObj [("streams", JArr [JObj [("codec_type", JStr "video");
                                            ("tags", JStr "n/a")]])]) 7 = Val status) /\
  ~ (exists status,
       classify (JObj [("streams", JArr [JObj [("codec_type", JStr "audio");
                                              ("tags", JStr "n/a")]])]) 7 = Val status).
Proof.
  split.
  - apply (proj2 (classify_succeeds_iff _ 7)). reflexivity.
  - intros H. apply (proj1 (classify_succeeds_iff _ 7)) in H. discriminate H.
Defined.

Lemma count_if_error cond items e :
  count_if cond items = Exc e -> exists s, In s items /\ cond s = Exc e.
Proof.
  induction items as [|s rest IH]; simpl; [discriminate|].
  destruct (cond s) as [b|e'] eqn:Hs; simpl.
  - destruct (count_if cond rest) as [n|e'']; simpl; [discriminate|].
    intros H. inversion H; subst. destruct (IH eq_refl) as [s' [Hin Hc]].
    exists s'. auto.
  - intros H. inversion H; subst. exists s. auto.
Qed.

Lemma get_error d k default e : get d k default = Exc e -> e = AttributeError.
Proof.
  destruct d; simpl; try (intros H; inversion H; reflexivity).
  destruct (lookup k fields); discriminate.
Qed.

Lemma count_missing_error kind media_info e :
  count_missing kind media_info = Exc e -> e = AttributeError \/ e = TypeError.
Proof.
  unfold count_missing.
  destruct (get media_info "streams" (JArr [])) as [streams|e'] eqn:Hg; simpl.
  - destruct (iter streams) as [items|e''] eqn:Hi; simpl.
    + intros H. apply count_if_error in H as [s [_ Hs]]. left.
      unfold missing_language in Hs.
      destruct (get s "codec_type" JNull) as [ct|e1] eqn:H1; simpl in Hs.
      * destruct (eq_str ct kind); [|discriminate].
        destruct (get s "tags" (JObj [])) as [tags|e2] eqn:H2; simpl in Hs.
        -- destruct (get tags "language" JNull) as [lang|e3] eqn:H3; simpl in Hs;
             [discriminate|]. inversion Hs; subst. exact (get_error _ _ _ _ H3).
        -- inversion Hs; subst. exact (get_error _ _ _ _ H2).
      * inversion Hs; subst. exact (get_error _ _ _ _ H1).
    + intros H. inversion H; subst. right.
      destruct streams; simpl in Hi; inversion Hi; reflexivity.
  - intros H. inversion H; subst. left. exact (get_error _ _ _ _ Hg).
Qed.

(** The exceptions of the classification are the two of reading a value
    of the wrong type. *)
Lemma classify_error media_info size e :
  classify media_info size = Exc e -> e = AttributeError \/ e = TypeError.
Proof.
  unfold classify.
  destruct (count_missing "audio" media_info) as [a|e1] eqn:Ha; simpl.
  - destruct (count_missing "subtitle" media_info) as [b|e2] eqn:Hb; simpl;
      [discriminate|].
    intros H. inversion H; subst. exact (count_missing_error _ _ _ Hb).
  - intros H. inversion H; subst. exact (count_missing_error _ _ _ Ha).
Qed.

Lemma format_name_error media_info e :
  Workflow.format_name_of media_info = Exc e -> e = AttributeError.
Proof.
  unfold Workflow.format_name_of.
  destruct (get media_info "format" (JObj [])) as [format|e1] eqn:H1; simpl.
  - apply get_error.
  - intros H. inversion H; subst. exact (get_error _ _ _ _ H1).
Qed.

Lemma count_if_skip cond before s after :
  cond s = Val false ->
  count_if cond (before ++ s :: after) = count_if cond (before ++ after).
Proof.
  intros Hs. induction before as [|x before IH]; simpl.
  - rewrite Hs. simpl. destruct (count_if cond after); reflexivity.
  - rewrite IH. reflexivity.
Qed.

Lemma other_kind_not_counted kind s :
  kind = "audio" \/ kind = "subtitle" ->
  other_kind s = true -> missing_language kind s = Val false.
Proof.
  unfold other_kind, missing_language. intros Hk.
  destruct s as [| | | | | |fields]; try discriminate. simpl.
  destruct (lookup "codec_type" fields) as [ct|]; simpl; [|reflexivity].
  intros H. apply negb_true_iff, orb_false_iff in H as [Ha Hs].
  destruct Hk; subst kind; rewrite ?Ha, ?Hs; reflexivity.
Qed.

Lemma classify_reads_streams_only fields fields' size :
  lookup "streams" fields = lookup "streams" fields' ->
  classify (JObj fields) size = classify (JObj fields') size.
Proof.
  intros H. unfold classify, count_missing, get. rewrite H. reflexivity.
Qed.

(** A stream that is neither audio nor subtitle (a video stream, a data
    stream, an object without [codec_type]) has no part in the status: a
    record classifies the same as any record whose list of streams is the
    same without it, whatever the tags of that stream and whatever else the
    two records hold. *)
Theorem other_streams_do_not_matter
    (fields fields' : list (string * json)) (before after : list json) (s : json)
    (size : Z) :
  other_kind s = true ->
  lookup "streams" fields = Some (JArr (before ++ s :: after)) ->
  lookup "streams" fields' = Some (JArr (before ++ after)) ->
  classify (JObj fields) size = classify (JObj fields') size.
Proof.
  intros Hs Hf Hf'. unfold classify, count_missing, get. rewrite Hf, Hf'. simpl.
  rewrite !count_if_skip by (apply other_kind_not_counted; auto).
  reflexivity.
Qed.

Lemma other_streams_do_not_matter_witness :
  classify (media ([stream "audio" (Some "eng")] ++
                   JObj [("codec_type", JStr "video"); ("tags", JNull)] ::
                   [stream "subtitle" None])) 9
  = classify (JObj [("streams", JArr [stream "audio" (Some "eng");
                                      stream "subtitle" None])]) 9.
Proof.
  apply (other_streams_do_not_matter _ _
           [stream "audio" (Some "eng")] [stream "subtitle" None]
           (JObj [("codec_type", JStr "video"); ("tags", JNull)]) 9);
    reflexivity.
Defined.

End ClassifierExtras.

(** ** More about the dedup store *)

Section StoreExtras.
Import Store Stats.

(** Marking a path makes that path processed and changes the answer for
    no other path: a path is processed afterwards exactly when it is the
    marked one or was processed before.  The store never forgets. *)
Theorem is_processed_after_mark (t : table) (p q status : string) (size now : Z) :
  is_already_processed (mark_as_processed t p status size now) q
  = ((q =? p)%string || is_already_processed t q).
Proof.
  destruct (String.eqb_spec q p) as [->|Hne]; simpl.
  - apply is_already_processed_records.
    unfold mark_as_processed.
    change p with
      (filepath {| filepath := p; processed_at := now; status := status; size := size |}) at 2.
    rewrite records_insert_same. discriminate.
  - assert (Hrec : records (mark_as_processed t p status size now) q = records t q).
    { apply records_insert_other. simpl. congruence. }
    unfold is_already_processed, select_filepath. fold (records (mark_as_processed t p status size now) q).
    fold (records t q). rewrite Hrec. reflexivity.
Qed.

Lemma filter_partition_length {A} (f : A -> bool) (l : list A) :
  (List.length (filter f l) + List.length (filter (fun a => negb (f a)) l)
   = List.length l)%nat.
Proof.
  induction l as [|a l IH]; simpl; [reflexivity|].
  destruct (f a); simpl; lia.
Qed.

Lemma total_rows_after_mark (t : table) (p status : string) (size now : Z) :
  reachable t ->
  count_all (mark_as_processed t p status size now)
  = count_all t + (if is_already_processed t p then 0 else 1).
Proof.
  intros Hr. unfold count_all, mark_as_processed, insert_or_replace.
  rewrite length_app. simpl.
  pose proof (filter_partition_length (fun r => (filepath r =? p)%string) t) as Hsplit.
  pose proof (reachable_unique t Hr p) as Hone.
  unfold is_already_processed, select_filepath.
  unfold records in Hone.
  destruct (filter (fun r => (filepath r =? p)%string) t) as [|r [|r' l]] eqn:Hf;
    simpl in *; lia.
Qed.

(** On a table the store can hold, marking a new path adds one row and
    marking a known path keeps the number of rows: the total that
    [get_stats] reports counts the distinct paths marked so far. *)
Theorem total_after_mark (t : table) (p status : string) (size now : Z) :
  reachable t ->
  count_all (mark_as_processed t p status size now)
  = count_all t + (if is_already_processed t p then 0 else 1).
Proof.
  exact (total_rows_after_mark t p status size now).
Qed.

Lemma total_after_mark_witness :
  let t := mark_as_processed (init_db None) "/watch/a.mkv" "OK" 10 0 in
  count_all (mark_as_processed t "/watch/a.mkv" "REMUX" 10 1) = 1 /\
  count_all (mark_as_processed t "/watch/b.mkv" "REMUX" 10 1) = 2.
Proof.
  intros t. split.
  - rewrite (total_after_mark t "/watch/a.mkv" "REMUX" 10 1); [reflexivity|].
    apply reach_mark, reach_init.
  - rewrite (total_after_mark t "/watch/b.mkv" "REMUX" 10 1); [reflexivity|].
    apply reach_mark, reach_init.
Defined.

Lemma sum_counts_bump s groups :
  sum_counts (bump s groups) = sum_counts groups + 1.
Proof.
  induction groups as [|[s' n] rest IH]; simpl; [reflexivity|].
  destruct (s' =? s)%string; unfold sum_counts in *; simpl; [lia|].
  rewrite IH. lia.
Qed.

Lemma count_of_bump s s' groups :
  count_of s' (bump s groups) =
  if (s =? s')%string
  then Some (match count_of s' groups with Some n => n + 1 | None => 1 end)
  else count_of s' groups.
Proof.
  induction groups as [|[k n] rest IH]; simpl.
  - reflexivity.
  - destruct (k =? s)%string eqn:Eks; simpl.
    + apply String.eqb_eq in Eks. subst k.
      destruct (s =? s')%string; reflexivity.
    + destruct (k =? s')%string eqn:Eks'.
      * apply String.eqb_eq in Eks'. subst k. rewrite String.eqb_sym, Eks. reflexivity.
      * exact IH.
Qed.

Lemma count_of_by_status s t :
  count_of s (count_by_status t) =
  match with_status s t with
  | [] => None
  | rows => Some (Z.of_nat (List.length rows))
  end.
Proof.
  induction t as [|r t IH]; simpl; [reflexivity|].
  rewrite count_of_bump, IH. unfold with_status. simpl.
  destruct (status r =? s)%string; [|reflexivity].
  destruct (filter _ t) as [|r' l]; [reflexivity|].
  f_equal. cbn [List.length]. lia.
Qed.

Lemma count_by_status_adds_up (t : table) :
  sum_counts (count_by_status t) = count_all t /\
  forall s n,
    count_of s (count_by_status t) = Some n <->
    (n = Z.of_nat (List.length (with_status s t)) /\ 0 < n).
Proof.
  split.
  - unfold count_all. induction t as [|r t IH]; [reflexivity|].
    cbn [count_by_status List.length]. rewrite sum_counts_bump, IH. lia.
  - intros s n. rewrite count_of_by_status.
    destruct (with_status s t) as [|r l]; simpl.
    + split; [discriminate | intros [-> H]; lia].
    + split.
      * intros H. inversion H. split; [reflexivity | lia].
      * intros [-> _]. reflexivity.
Qed.

End StoreExtras.

(** ** More about the stabilizer *)

Section StabilizerExtras.
Import Py Env Stabilizer Workflow Sampling.

(** What a Stable answer says about the samples the loop used: it went on
    with the reference size until the counter was full, or it used, at the
    end, one sample more than the threshold, all of one size. *)
Lemma stable_loop_sound cfg p samples :
  forall last_size stable_count tr rest tr',
    stable_loop cfg p last_size stable_count samples tr = (Ret true, rest, tr') ->
    stable_count < STABILIZE_CHECKS cfg ->
    (exists k, samples = (repeat (Size last_size) k ++ rest)%list /\
               stable_count + Z.of_nat k = STABILIZE_CHECKS cfg) \/
    (exists pre x,
        samples = (pre ++ repeat (Size x) (S (Z.to_nat (STABILIZE_CHECKS cfg))) ++ rest)%list).
Proof.
  induction samples as [|a samples IH]; intros last_size stable_count tr rest tr' Hrun Hlt.
  - simpl in Hrun. apply Z.ltb_lt in Hlt. rewrite Hlt in Hrun. discriminate.
  - cbn [stable_loop] in Hrun.
    pose proof Hlt as Hlt'. apply Z.ltb_lt in Hlt'. rewrite Hlt' in Hrun.
    destruct a as [n| |]; try discriminate.
    destruct (STABILIZE_INTERVAL cfg <? 0); [discriminate|].
    destruct (Z.eqb_spec n last_size) as [->|Hne].
    + destruct (Z.ltb_spec (stable_count + 1) (STABILIZE_CHECKS cfg)) as [Hmore|Hfull].
      * destruct (IH _ _ _ _ _ Hrun Hmore) as [[k [Hs Hk]]|[pre [x Hs]]].
        -- left. exists (S k). split; [rewrite Hs; reflexivity | lia].
        -- right. exists (Size last_size :: pre), x. rewrite Hs. reflexivity.
      * rewrite stable_loop_done in Hrun by (apply Z.ltb_ge; exact Hfull).
        inversion Hrun; subst. left. exists 1%nat. split; [reflexivity | lia].
    + destruct (Z.ltb_spec 0 (STABILIZE_CHECKS cfg)) as [Hpos|Hnonpos].
      * destruct (IH _ _ _ _ _ Hrun Hpos) as [[k [Hs Hk]]|[pre [x Hs]]].
        -- right. exists [], n. rewrite Hs. simpl.
           replace (Z.to_nat (STABILIZE_CHECKS cfg)) with k by lia. reflexivity.
        -- right. exists (Size n :: pre), x. rewrite Hs. reflexivity.
      * rewrite stable_loop_done in Hrun by (apply Z.ltb_ge; exact Hnonpos).
        inversion Hrun; subst. right. exists [], n.
        replace (Z.to_nat (STABILIZE_CHECKS cfg)) with 0%nat by lia. reflexivity.
Qed.

(** A Vanished answer comes from a sample that found the file missing,
    after samples that all found it. *)
Lemma stable_loop_vanished cfg p samples :
  forall last_size stable_count tr rest tr',
    stable_loop cfg p last_size stable_count samples tr = (Ret false, rest, tr') ->
    exists found, samples = (map Size found ++ Missing :: rest)%list.
Proof.
  induction samples as [|a samples IH]; intros last_size stable_count tr rest tr' Hrun.
  - simpl in Hrun. destruct (stable_count <? STABILIZE_CHECKS cfg); discriminate.
  - cbn [stable_loop] in Hrun.
    destruct (stable_count <? STABILIZE_CHECKS cfg); [|discriminate].
    destruct a as [n| |]; try discriminate.
    + destruct (STABILIZE_INTERVAL cfg <? 0); [discriminate|].
      destruct (IH _ _ _ _ _ Hrun) as [found Hs].
      exists (n :: found). rewrite Hs. reflexivity.
    + inversion Hrun; subst. exists []. reflexivity.
Qed.

(** The loop sleeps once after every sample that found the file. *)
Lemma stable_loop_sleeps cfg p samples :
  forall last_size stable_count tr rest tr',
    stable_loop cfg p last_size stable_count samples tr = (Ret true, rest, tr') ->
    exists evs,
      tr' = (evs ++ tr)%list /\
      (List.length (filter is_sleep evs) + List.length rest = List.length samples)%nat.
Proof.
  induction samples as [|a samples IH]; intros last_size stable_count tr rest tr' Hrun.
  - simpl in Hrun. destruct (stable_count <? STABILIZE_CHECKS cfg); [discriminate|].
    inversion Hrun; subst. exists []. split; reflexivity.
  - cbn [stable_loop] in Hrun.
    destruct (stable_count <? STABILIZE_CHECKS cfg).
    + destruct a as [n| |]; try discriminate.
      destruct (STABILIZE_INTERVAL cfg <? 0); [discriminate|].
      destruct (IH _ _ _ _ _ Hrun) as [evs [Htr Hlen]].
      exists (evs ++ [EvSleep (STABILIZE_INTERVAL cfg); EvGetsize p (Size n)])%list.
      split; [rewrite Htr, <- app_assoc; reflexivity|].
      rewrite filter_app, length_app. simpl. lia.
    + inversion Hrun; subst. exists []. split; reflexivity.
Qed.

(** A loop that is waiting has used every sample there was. *)
Lemma stable_loop_blocked cfg p samples :
  forall last_size stable_count tr,
    fst (fst (stable_loop cfg p last_size stable_count samples tr)) = Blocked ->
    snd (fst (stable_loop cfg p last_size stable_count samples tr)) = [].
Proof.
  induction samples as [|a samples IH]; intros last_size stable_count tr; cbn [stable_loop].
  - destruct (stable_count <? STABILIZE_CHECKS cfg); [reflexivity | discriminate].
  - destruct (stable_count <? STABILIZE_CHECKS cfg); [|discriminate].
    destruct a as [n| |]; try discriminate.
    destruct (STABILIZE_INTERVAL cfg <? 0); [discriminate|]. apply IH.
Qed.

(** The loop raises what [os.path.getsize] raises for a file it may not
    read, or what [time.sleep] raises for a negative length. *)
Lemma stable_loop_error cfg p samples :
  forall last_size stable_count tr e,
    fst (fst (stable_loop cfg p last_size stable_count samples tr)) = Raise e ->
    e = OSError \/ e = ValueError.
Proof.
  induction samples as [|a samples IH];
    intros last_size stable_count tr e; cbn [stable_loop].
  - destruct (stable_count <? STABILIZE_CHECKS cfg); simpl; discriminate.
  - destruct (stable_count <? STABILIZE_CHECKS cfg); [|simpl; discriminate].
    destruct a as [n| |]; simpl; try discriminate.
    + destruct (STABILIZE_INTERVAL cfg <? 0); [|apply IH].
      intros H. inversion H. auto.
    + intros H. inversion H. auto.
Qed.

Lemma stable_loop_changing cfg p observed :
  0 < STABILIZE_CHECKS cfg ->
  0 <= STABILIZE_INTERVAL cfg ->
  forall last_size stable_count tr,
    stable_count < STABILIZE_CHECKS cfg ->
    changing last_size observed ->
    fst (stable_loop cfg p last_size stable_count (map Size observed) tr) = (Blocked, []).
Proof.
  intros Hc Hi. apply Z.ltb_ge in Hi.
  induction observed as [|x observed IH]; intros last_size stable_count tr Hlt Hch.
  - simpl. apply Z.ltb_lt in Hlt. rewrite Hlt. reflexivity.
  - destruct Hch as [Hx Hrest]. cbn [map stable_loop].
    apply Z.ltb_lt in Hlt. rewrite Hlt, Hi.
    apply Z.eqb_neq in Hx. rewrite Hx. apply IH; assumption.
Qed.

Lemma no_sentinel_repeat k rest :
  Forall (fun a => a <> Size (-1)) (repeat (Size (-1)) k ++ rest)%list -> k = 0%nat.
Proof.
  destruct k; [reflexivity|]. simpl. intros H. inversion H. congruence.
Qed.

(** Stable is only answered after [STABILIZE_CHECKS + 1] samples in a row
    reported one and the same size: the answers used up end with that
    many equal sizes.  (No file has the size -1 the loop starts from.) *)
Theorem stable_means_unchanged (p : string) (w : world) :
  0 < STABILIZE_CHECKS (consts w) ->
  Forall (fun a => a <> Size (-1)) (sizes w) ->
  fst (wait_for_stable_file p w) = Ret true ->
  exists pre x,
    sizes w = (pre ++ repeat (Size x) (S (Z.to_nat (STABILIZE_CHECKS (consts w))))
                   ++ sizes (snd (wait_for_stable_file p w)))%list.
Proof.
  intros Hc Hsz. unfold wait_for_stable_file.
  destruct (stable_loop (consts w) p (-1) 0 (sizes w) (trace w)) as [[r rest] tr'] eqn:Hrun.
  simpl. intros ->.
  destruct (stable_loop_sound _ _ _ _ _ _ _ _ Hrun Hc) as [[k [Hs Hk]]|Hs]; [|exact Hs].
  rewrite Hs in Hsz. apply no_sentinel_repeat in Hsz. lia.
Qed.

Lemma stable_means_unchanged_witness :
  let w := fresh [] [] (map Size [100; 150; 150; 150; 150; 7]) [] [] in
  exists pre x,
    sizes w = (pre ++ repeat (Size x) 4 ++ [Size 7])%list.
Proof.
  intros w.
  apply (stable_means_unchanged "/watch/a.mkv" w).
  - reflexivity.
  - unfold w. simpl. repeat constructor; discriminate.
  - reflexivity.
Defined.

(** A Stable answer has cost one sleep of the interval per sample used,
    the last sample included, and at least [STABILIZE_CHECKS + 1] of
    them. *)
Theorem stable_takes_its_time (p : string) (w : world) :
  0 < STABILIZE_CHECKS (consts w) ->
  Forall (fun a => a <> Size (-1)) (sizes w) ->
  fst (wait_for_stable_file p w) = Ret true ->
  exists evs,
    trace (snd (wait_for_stable_file p w)) = (evs ++ trace w)%list /\
    List.length (filter is_sleep evs) = consumed w (snd (wait_for_stable_file p w)) /\
    (Z.to_nat (STABILIZE_CHECKS (consts w)) + 1 <= List.length (filter is_sleep evs))%nat.
Proof.
  intros Hc Hsz. unfold consumed, wait_for_stable_file.
  destruct (stable_loop (consts w) p (-1) 0 (sizes w) (trace w)) as [[r rest] tr'] eqn:Hrun.
  simpl. intros ->.
  destruct (stable_loop_sleeps _ _ _ _ _ _ _ _ Hrun) as [evs [Htr Hlen]].
  exists evs. split; [exact Htr|].
  destruct (stable_loop_sound _ _ _ _ _ _ _ _ Hrun Hc) as [[k [Hs Hk]]|[pre [x Hs]]].
  - rewrite Hs in Hsz. apply no_sentinel_repeat in Hsz. lia.
  - split; [lia|].
    rewrite Hs, !length_app, repeat_length in Hlen. lia.
Qed.

Lemma stable_takes_its_time_witness :
  let w := fresh [] [] (map Size [100; 150; 150; 150; 150; 7]) [] [] in
  exists evs,
    trace (snd (wait_for_stable_file "/watch/a.mkv" w)) = (evs ++ trace w)%list /\
    List.length (filter is_sleep evs) = 5%nat /\
    (4 <= List.length (filter is_sleep evs))%nat.
Proof.
  intros w.
  apply (stable_takes_its_time "/watch/a.mkv" w).
  - reflexivity.
  - unfold w. simpl. repeat constructor; discriminate.
  - reflexivity.
Defined.

(** A file whose size is different at every sample is never Stable: the
    loop uses every sample there is and asks for the next. *)
Theorem changing_file_is_polled_on (p : string) (w : world) (observed : list Z) :
  0 < STABILIZE_CHECKS (consts w) ->
  0 <= STABILIZE_INTERVAL (consts w) ->
  sizes w = map Size observed ->
  changing (-1) observed ->
  fst (wait_for_stable_file p w) = Blocked /\
  sizes (snd (wait_for_stable_file p w)) = [].
Proof.
  intros Hc Hi Hs Hch. unfold wait_for_stable_file. rewrite Hs.
  pose proof (stable_loop_changing (consts w) p observed Hc Hi (-1) 0 (trace w) Hc Hch) as H.
  destruct (stable_loop (consts w) p (-1) 0 (map Size observed) (trace w)) as [[r rest] tr'].
  simpl in *. inversion H. split; reflexivity.
Qed.

Lemma changing_file_is_polled_on_witness :
  fst (wait_for_stable_file "/watch/a.mkv"
         (fresh [] [] (map Size [1; 2; 3; 4; 5; 6; 7; 8]) [] [])) = Blocked.
Proof.
  apply (changing_file_is_polled_on "/watch/a.mkv"
           (fresh [] [] (map Size [1; 2; 3; 4; 5; 6; 7; 8]) [] []) [1; 2; 3; 4; 5; 6; 7; 8]).
  - reflexivity.
  - simpl. lia.
  - reflexivity.
  - simpl. repeat split; lia.
Defined.

(** Vanished is answered only when a sample found the file missing; all
    the samples before it found the file, and the answers after it are
    left. *)
Theorem vanished_means_missing (p : string) (w : world) :
  fst (wait_for_stable_file p w) = Ret false ->
  exists found,
    sizes w = (map Size found ++ Missing :: sizes (snd (wait_for_stable_file p w)))%list.
Proof.
  unfold wait_for_stable_file.
  destruct (stable_loop (consts w) p (-1) 0 (sizes w) (trace w)) as [[r rest] tr'] eqn:Hrun.
  simpl. intros ->. exact (stable_loop_vanished _ _ _ _ _ _ _ _ Hrun).
Qed.

Lemma vanished_means_missing_witness :
  let w := fresh [] [] [Size 5; Size 5; Missing; Size 9] [] [] in
  exists found, sizes w = (map Size found ++ Missing :: [Size 9])%list.
Proof.
  intros w. apply (vanished_means_missing "/watch/a.mkv" w). reflexivity.
Defined.

(** With [STABILIZE_CHECKS] at zero or below the file is not looked at:
    the answer is Stable at once, also for a file that is not there. *)
Theorem no_checks_no_sampling (p : string) (w : world) :
  STABILIZE_CHECKS (consts w) <= 0 ->
  fst (wait_for_stable_file p w) = Ret true /\
  sizes (snd (wait_for_stable_file p w)) = sizes w /\
  trace (snd (wait_for_stable_file p w)) = trace w.
Proof.
  intros Hc. unfold wait_for_stable_file.
  rewrite stable_loop_done by (apply Z.ltb_ge; lia).
  repeat split.
Qed.

Lemma no_checks_no_sampling_witness :
  let w := {| consts := {| STABILIZE_INTERVAL := 10; STABILIZE_CHECKS := 0 |};
              conf := both_channels; db := []; store_faults := [];
              sizes := [Missing]; probes := []; posts := []; clock := 0; trace := [] |} in
  fst (wait_for_stable_file "/watch/gone.mkv" w) = Ret true.
Proof.
  intros w. apply (no_checks_no_sampling "/watch/gone.mkv" w). simpl. lia.
Defined.

(** With a negative [STABILIZE_INTERVAL] no file is ever Stable: the first
    sample that finds the file is followed by a [time.sleep] that raises
    [ValueError]. *)
Theorem negative_interval_never_stable (p : string) (w : world) :
  STABILIZE_INTERVAL (consts w) < 0 ->
  0 < STABILIZE_CHECKS (consts w) ->
  fst (wait_for_stable_file p w) <> Ret true /\
  forall n rest, sizes w = Size n :: rest ->
                 fst (wait_for_stable_file p w) = Raise ValueError.
Proof.
  intros Hi Hc. apply Z.ltb_lt in Hi. apply Z.ltb_lt in Hc.
  unfold wait_for_stable_file. split.
  - destruct (sizes w) as [|[n| |] rest]; cbn [stable_loop]; rewrite Hc, ?Hi;
      simpl; discriminate.
  - intros n rest ->. cbn [stable_loop]. rewrite Hc, Hi. reflexivity.
Qed.

Lemma negative_interval_never_stable_witness :
  let w := {| consts := {| STABILIZE_INTERVAL := -1; STABILIZE_CHECKS := 3 |};
              conf := both_channels; db := []; store_faults := [];
              sizes := map Size [100; 100; 100; 100; 100]; probes := []; posts := [];
              clock := 0; trace := [] |} in
  fst (wait_for_stable_file "/watch/a.mkv" w) = Raise ValueError.
Proof.
  intros w.
  destruct (negative_interval_never_stable "/watch/a.mkv" w) as [_ H].
  - simpl. lia.
  - simpl. lia.
  - apply (H 100 (map Size [100; 100; 100; 100])). reflexivity.
Defined.

End StabilizerExtras.

(** ** More about the workflow *)

Section WorkflowExtras.
Import Py Env Stabilizer Workflow Events.

Local Arguments Classifier.classify : simpl never.
Local Arguments format_name_of : simpl never.
Local Arguments Embed.build_embed : simpl never.
Local Arguments truthy : simpl never.
Local Arguments stable_loop : simpl never.
Local Arguments Store.mark_as_processed : simpl never.
Local Arguments Store.is_already_processed : simpl never.
Local Arguments Store.records : simpl never.
Local Arguments Z.add : simpl never.

Lemma polling_forall (f : event -> bool) polled :
  forallb is_polling polled = true ->
  (forall e, is_polling e = true -> f e = true) ->
  forallb f polled = true.
Proof.
  intros Hp Hf. rewrite forallb_forall in *. auto.
Qed.

Lemma polling_filter_nil (f : event -> bool) polled :
  forallb is_polling polled = true ->
  (forall e, is_polling e = true -> f e = false) ->
  filter f polled = [].
Proof.
  intros Hp Hf. induction polled as [|e polled IH]; [reflexivity|].
  simpl in *. apply andb_true_iff in Hp as [He Hr].
  rewrite (Hf e He). auto.
Qed.

End WorkflowExtras.

(** Where an event of a symbolic run can be, for an event of any kind. *)
Ltac split_events :=
  repeat match goal with
         | H : In _ (_ ++ _)%list |- _ => apply in_app_or in H
         | H : _ \/ _ |- _ => destruct H
         | H : In _ (_ :: _) |- _ => simpl in H
         | H : In _ [] |- _ => contradiction H
         | H : False |- _ => contradiction H
         | H : @eq Env.event _ _ |- _ =>
             first [discriminate H | inversion H; subst; clear H]
         | H : In ?e ?polled, Hp : forallb Workflow.is_polling ?polled = true |- _ =>
             let Hx := fresh in
             pose proof (polling_in polled e Hp H) as Hx; discriminate Hx
         end.

(** A test holds of all events of a symbolic run, polling included. *)
Ltac every_event :=
  simpl; rewrite ?forallb_app; simpl;
  repeat match goal with
         | H : forallb Workflow.is_polling ?l = true |- context [forallb ?f ?l] =>
             rewrite (polling_forall f l H)
               by (let e := fresh in intros e; destruct e; cbv; congruence)
         end;
  reflexivity.

(** Counting the events of a kind that is not polling. *)
Ltac count_events :=
  simpl; rewrite ?filter_app; simpl;
  repeat match goal with
         | H : forallb Workflow.is_polling ?l = true |- context [filter ?f ?l] =>
             rewrite (polling_filter_nil f l H)
               by (let e := fresh in intros e; destruct e; cbv; congruence)
         end;
  simpl; lia.

(** The flags of the configuration, case by case. *)
Ltac split_flags :=
  repeat match goal with
         | H : context [Env.enable_ntfy ?c] |- _ =>
             destruct (Env.enable_ntfy c); simpl in H
         | H : context [Env.enable_discord ?c] |- _ =>
             destruct (Env.enable_discord c); simpl in H
         | H : context [Workflow.is_set ?x] |- _ =>
             destruct (Workflow.is_set x); simpl in H
         end;
  simpl in *; try congruence.

Section WorkflowExtraClaims.
Import Py Env Stabilizer Workflow Events.

Local Arguments Classifier.classify : simpl never.
Local Arguments format_name_of : simpl never.
Local Arguments Embed.build_embed : simpl never.
Local Arguments truthy : simpl never.
Local Arguments stable_loop : simpl never.
Local Arguments Store.mark_as_processed : simpl never.
Local Arguments Store.is_already_processed : simpl never.
Local Arguments Store.records : simpl never.
Local Arguments Z.add : simpl never.

(** A channel that is switched off, or has no topic or webhook, is never
    posted to, whatever the run does otherwise. *)
Theorem off_channel_is_never_posted (p : string) (w : world) (ch : channel) :
  channel_on ch (conf w) = false ->
  exists evs,
    trace (snd (analyze_file p w)) = (evs ++ trace w)%list /\
    forall st a, ~ In (EvPost ch st a) evs.
Proof.
  intros Hoff. run_all; give_events; intros the_status the_answer Hin; split_events;
    simpl in Hoff; split_flags.
Qed.

Lemma off_channel_is_never_posted_witness :
  let w := {| consts := default_consts; conf := default_config; db := [];
              store_faults := []; sizes := map Size [100; 100; 100; 100; 100];
              probes := [Exited 0 (Some (Metadata.media []))];
              posts := [Status 200; Status 204]; clock := 0; trace := [] |} in
  exists evs,
    trace (snd (analyze_file "/watch/a.mkv" w)) = (evs ++ trace w)%list /\
    forall st a, ~ In (EvPost Discord st a) evs.
Proof.
  intros w. apply (off_channel_is_never_posted "/watch/a.mkv" w Discord). reflexivity.
Defined.




(** One run probes at most once, posts at most once to each channel and
    writes at most one row. *)
Theorem at_most_once_per_run (p : string) (w : world) :
  exists evs,
    trace (snd (analyze_file p w)) = (evs ++ trace w)%list /\
    (List.length (filter is_probe evs) <= 1)%nat /\
    (List.length (filter (posts_to Ntfy) evs) <= 1)%nat /\
    (List.length (filter (posts_to Discord) evs) <= 1)%nat /\
    (List.length (filter is_upsert evs) <= 1)%nat.
Proof.
  run_all; give_events; repeat split; count_events.
Qed.

(** A probe output that is falsy (null, an empty object or list, zero, an
    empty string) counts as no media information: the run prints that it
    could not get any, posts nothing, writes nothing and returns. *)
Theorem falsy_metadata_is_no_metadata (p : string) (w : world) :
  exists evs,
    trace (snd (analyze_file p w)) = (evs ++ trace w)%list /\
    forall code media_info,
      In (EvProbe p (Exited code (Some media_info))) evs ->
      truthy media_info = false ->
      ends_in evs (NoMediaInfo p) /\
      forallb silent evs = true /\
      db (snd (analyze_file p w)) = db w /\
      fst (analyze_file p w) = Ret tt.
Proof.
  run_all; give_events; intros the_code the_info Hin Hfalsy; split_events.
  all: try match goal with
           | H : negb (truthy ?j) = false |- _ => rewrite Hfalsy in H; discriminate H
           end.
  all: split; [reflexivity|]; split; [every_event|]; split; reflexivity.
Qed.

Lemma falsy_metadata_is_no_metadata_witness :
  let w := fresh [] [] (map Size [100; 100; 100; 100; 100])
                 [Exited 1 (Some (JObj []))] [Status 200; Status 204] in
  db (snd (analyze_file "/watch/notes.mkv" w)) = db w /\
  fst (analyze_file "/watch/notes.mkv" w) = Ret tt.
Proof.
  intros w.
  destruct (falsy_metadata_is_no_metadata "/watch/notes.mkv" w) as [evs [Htr H]].
  rewrite app_nil_r in Htr.
  destruct (H 1 (JObj [])) as [_ [_ [Hdb Hret]]].
  - rewrite <- Htr. vm_compute. right. left. reflexivity.
  - reflexivity.
  - split; [exact Hdb | exact Hret].
Defined.


(** An error caught by the [try] block, other than a failure of the store
    at the record write, has come before any notification: nothing was
    posted and nothing written. *)
Theorem caught_errors_come_before_notifying (p : string) (w : world) :
  exists evs,
    trace (snd (analyze_file p w)) = (evs ++ trace w)%list /\
    forall e,
      ends_in evs (ErrorAnalyzing p e) ->
      e <> OperationalError ->
      forallb silent evs = true /\
      db (snd (analyze_file p w)) = db w /\
      fst (analyze_file p w) = Ret tt.
Proof.
  run_all; give_events; intros the_error Hend Hne; unfold ends_in in Hend.
  all: try (simpl in Hend; discriminate Hend).
  all: try (exfalso; simpl in Hend;
            match type of Hend with
            | hd_error (?pl ++ ?l)%list = Some ?e =>
                destruct (polling_head pl l e ltac:(assumption) Hend) as [Hx|Hx];
                discriminate Hx
            end).
  all: simpl in Hend; inversion Hend; subst; try congruence.
  all: split; [every_event|]; split; reflexivity.
Qed.

Lemma caught_errors_come_before_notifying_witness :
  let w := fresh [] [] (map Size [100; 100; 100; 100; 100])
                 [Exited 0 (Some (JArr [JInt 1]))] [Status 200; Status 204] in
  db (snd (analyze_file "/watch/a.mkv" w)) = db w /\
  posts (snd (analyze_file "/watch/a.mkv" w)) = [Status 200; Status 204].
Proof.
  intros w.
  destruct (caught_errors_come_before_notifying "/watch/a.mkv" w) as [evs [Htr H]].
  rewrite app_nil_r in Htr.
  destruct (H AttributeError) as [_ [Hdb _]].
  - unfold ends_in. rewrite <- Htr. reflexivity.
  - discriminate.
  - split; [exact Hdb | reflexivity].
Defined.


(** When the store fails at the record write, the notifications have
    gone out already: every channel that is switched on has been posted to,
    except the rich channel when its embed cannot be built from the file's
    data, which prints that channel's error line; the store's error is
    printed, and the path is still not processed: its next arrival runs the
    whole workflow and notifies once more. *)
Theorem failed_write_after_notifying (p : string) (w : world) :
  exists evs,
    trace (snd (analyze_file p w)) = (evs ++ trace w)%list /\
    (ends_in evs (ErrorAnalyzing p OperationalError) ->
     (forall ch, channel_on ch (conf w) = true ->
        (exists st a, In (EvPost ch st a) evs) \/
        (ch = Discord /\
         In (EvLog (NotificationError Discord)) evs /\
         exists code media_info size st e later earlier,
           evs = (later ++ EvProbe p (Exited code (Some media_info))
                        :: EvGetsize p (Size size) :: earlier)%list /\
           Classifier.classify media_info size = Val st /\
           Embed.build_embed st size media_info = Exc e)) /\
     db (snd (analyze_file p w)) = db w /\
     Store.is_already_processed (db (snd (analyze_file p w))) p = false /\
     fst (analyze_file p w) = Ret tt).
Proof.
  run_all; give_events; intros Hend; unfold ends_in in Hend.
  all: try (simpl in Hend; discriminate Hend).
  all: try (exfalso; simpl in Hend;
            match type of Hend with
            | hd_error (?pl ++ ?l)%list = Some ?e =>
                destruct (polling_head pl l e ltac:(assumption) Hend) as [Hx|Hx];
                discriminate Hx
            end).
  all: simpl in Hend; inversion Hend; subst; try congruence.
  all: try match goal with
           | H : format_name_of _ = Exc OperationalError |- _ =>
               apply format_name_error in H; discriminate H
           | H : Classifier.classify _ _ = Exc OperationalError |- _ =>
               destruct (classify_error _ _ _ H) as [Hx|Hx]; discriminate Hx
           end.
  all: split; [|split; [reflexivity | split; [assumption | reflexivity]]].
  all: intros [|] Hon; simpl in Hon; split_flags.
  all: first
         [ left; eexists; eexists; find_in
         | right; split; [reflexivity|]; split; [find_in|];
           match goal with
           | Hb : Embed.build_embed ?st _ _ = Exc ?e
             |- exists code media_info size st e later earlier, ?l = _ /\ _ =>
               let la := before_probe l in
               lazymatch l with
               | context [EvProbe _ (Exited ?c (Some ?m)) :: EvGetsize _ (Size ?n) :: ?rest] =>
                   exists c, m, n, st, e, la, rest
               end
           end;
           split; [reflexivity | split; assumption] ].
Qed.

Lemma failed_write_after_notifying_witness :
  let w := fresh [] [false; true] (map Size [100; 100; 100; 100; 100])
                 [Exited 0 (Some (Metadata.media []))] [Status 200; Status 204] in
  (exists st a, In (EvPost Ntfy st a) (trace (snd (analyze_file "/watch/a.mkv" w)))) /\
  Store.is_already_processed (db (snd (analyze_file "/watch/a.mkv" w))) "/watch/a.mkv" = false.
Proof.
  intros w.
  destruct (failed_write_after_notifying "/watch/a.mkv" w) as [evs [Htr H]].
  rewrite app_nil_r in Htr.
  destruct H as [Hposted [_ [Hnew _]]].
  - unfold ends_in. rewrite <- Htr. reflexivity.
  - split; [|exact Hnew]. rewrite Htr.
    destruct (Hposted Ntfy eq_refl) as [Hp|[Hd _]]; [exact Hp | discriminate Hd].
Defined.


(** A run for one path leaves the records of every other path as they
    were. *)
Theorem other_paths_are_untouched (p q : string) (w : world) :
  q <> p ->
  Store.records (db (snd (analyze_file p w))) q = Store.records (db w) q.
Proof.
  intros Hq. run_all; try reflexivity.
  all: apply records_insert_other; simpl; congruence.
Qed.

Lemma other_paths_are_untouched_witness :
  let w := fresh (Store.mark_as_processed [] "/watch/b.mkv" "OK" 5 0) []
                 (map Size [100; 100; 100; 100; 100])
                 [Exited 0 (Some (Metadata.media []))] [Status 200; Status 204] in
  Store.records (db (snd (analyze_file "/watch/a.mkv" w))) "/watch/b.mkv"
  = Store.records (db w) "/watch/b.mkv".
Proof.
  intros w. apply (other_paths_are_untouched "/watch/a.mkv" "/watch/b.mkv" w).
  discriminate.
Defined.

End WorkflowExtraClaims.

(** Running the workflow symbolically, keeping what a waiting loop says
    about the samples. *)
Ltac run_step_samples :=
  match goal with
  | H : ?x = _ |- context [match ?x with _ => _ end] => rewrite H
  | |- context [Stabilizer.stable_loop ?c ?p ?l ?n ?s ?t] =>
      let polled := fresh "polled" in
      let He := fresh "He" in
      let Hp := fresh "Hpolled" in
      let Hb := fresh "Hwaiting" in
      destruct (stable_loop_trace c p s l n t) as [polled [He Hp]];
      pose proof (stable_loop_blocked c p s l n t) as Hb;
      destruct (Stabilizer.stable_loop c p l n s t) as [[? ?] ?];
      simpl in He, Hb; subst
  | |- context [match ?x with _ => _ end] =>
      lazymatch x with
      | context [match _ with _ => _ end] => fail
      | _ => destruct x eqn:?
      end
  end.

Section WorkflowOutcomes.
Import Py Env Stabilizer Workflow Events.

Local Arguments Classifier.classify : simpl never.
Local Arguments format_name_of : simpl never.
Local Arguments Embed.build_embed : simpl never.
Local Arguments truthy : simpl never.
Local Arguments stable_loop : simpl never.
Local Arguments Store.mark_as_processed : simpl never.
Local Arguments Store.is_already_processed : simpl never.
Local Arguments Store.records : simpl never.
Local Arguments Z.add : simpl never.

(** A run only waits on the outside: when it has not come back, the
    environment owes it an answer, of [os.path.getsize], of the probe or of
    a post. *)
Theorem waiting_run_waits_for_an_answer (p : string) (w : world) :
  fst (analyze_file p w) = Blocked ->
  sizes (snd (analyze_file p w)) = [] \/
  probes (snd (analyze_file p w)) = [] \/
  posts (snd (analyze_file p w)) = [].
Proof.
  unfold_run; repeat (simpl; run_step_samples); simpl; intros Hb; try discriminate Hb.
  all: first [ left; first [assumption | reflexivity | apply Hwaiting; reflexivity]
             | right; left; first [assumption | reflexivity]
             | right; right; first [assumption | reflexivity] ].
Qed.

Lemma waiting_run_waits_for_an_answer_witness :
  let w := fresh [] [] (map Size [100; 100; 100; 100; 100])
                 [Exited 0 (Some (Metadata.media []))] [Status 200] in
  sizes (snd (analyze_file "/watch/a.mkv" w)) = [] \/
  probes (snd (analyze_file "/watch/a.mkv" w)) = [] \/
  posts (snd (analyze_file "/watch/a.mkv" w)) = [].
Proof.
  intros w. apply (waiting_run_waits_for_an_answer "/watch/a.mkv" w). reflexivity.
Defined.

(** An exception leaves [analyze_file] only from the dedup check or the
    stabilization: it is the store's error, an [OSError] of
    [os.path.getsize] or the [ValueError] of [time.sleep]; by then nothing
    has been probed, posted or written, and no line reports the error. *)
Theorem escaping_error_leaves_nothing (p : string) (w : world) (e : exn) :
  fst (analyze_file p w) = Raise e ->
  (e = OperationalError \/ e = OSError \/ e = ValueError) /\
  exists evs,
    trace (snd (analyze_file p w)) = (evs ++ trace w)%list /\
    forallb (fun ev => silent ev && negb (is_probe ev)) evs = true /\
    (forall q e', ~ In (EvLog (ErrorAnalyzing q e')) evs) /\
    db (snd (analyze_file p w)) = db w.
Proof.
  unfold analyze_file, dedup_check, process_new_file, is_already_processed,
    wait_for_stable_file, store_access, try_except, bind, ret, log, emit.
  simpl.
  destruct (store_faults w) as [|[|] faults] eqn:Hf; simpl.
  all: try (intros H; inversion H; subst; split; [auto|];
            exists [EvStoreFault; EvLog (Analyzing p)]; repeat split;
            intros q e' Hin; split_events).
  all: destruct (Store.is_already_processed (db w) p); simpl; try discriminate.
  all: match goal with
       | |- context [stable_loop ?c ?pp ?l ?n ?s ?t] =>
           pose proof (stable_loop_error c pp s l n t) as Hk;
           destruct (stable_loop_trace c pp s l n t) as [polled [He Hpolled]];
           destruct (stable_loop c pp l n s t) as [[r rest] tr']; simpl in He, Hk; subst
       end.
  all: destruct r as [[|]|e0|]; simpl; try discriminate.
  all: try (intros H; inversion H; subst; split; [right; apply Hk; reflexivity|];
            give_events; split; [every_event|]; split; [|reflexivity];
            intros q e' Hin; split_events).
  all: match goal with
       | |- context [process_stable_file ?q ?w1] =>
           destruct (process_stable_file q w1) as [[|e1|] w3]; simpl; discriminate
       end.
Qed.

Lemma escaping_error_leaves_nothing_witness :
  let w := fresh [] [] [Size 100; Denied] [] [] in
  OSError = OperationalError \/ OSError = OSError \/ OSError = ValueError.
Proof.
  intros w.
  apply (escaping_error_leaves_nothing "/watch/a.mkv" w OSError). reflexivity.
Defined.

(** A path that has a record is passed over at once when the store
    answers: three events, none of them polling, probing, posting or
    writing. *)
Lemma second_look_is_idle p w :
  Store.is_already_processed (db w) p = true ->
  exists evs,
    trace (snd (analyze_file p w)) = (evs ++ trace w)%list /\
    forallb idle evs = true /\
    db (snd (analyze_file p w)) = db w.
Proof.
  intros Hdone. run_all; try congruence; give_events; repeat split.
Qed.

(** Once a run has reported a path processed, the path has its record, and
    every later run for it, in any world with that store, is passed over:
    no polling, no probe, no post, no write. *)
Theorem processed_once_then_skipped (p : string) (w : world) :
  exists evs,
    trace (snd (analyze_file p w)) = (evs ++ trace w)%list /\
    forall st,
      ends_in evs (Processed p st) ->
      Store.is_already_processed (db (snd (analyze_file p w))) p = true /\
      forall w2,
        db w2 = db (snd (analyze_file p w)) ->
        exists evs2,
          trace (snd (analyze_file p w2)) = (evs2 ++ trace w2)%list /\
          forallb idle evs2 = true /\
          db (snd (analyze_file p w2)) = db w2.
Proof.
  assert (Hmark : forall t st sz now,
             Store.is_already_processed (Store.mark_as_processed t p st sz now) p = true).
  { intros. apply is_already_processed_records. unfold Store.mark_as_processed.
    change p with
      (Store.filepath {| Store.filepath := p; Store.processed_at := now;
                         Store.status := st; Store.size := sz |}) at 2.
    rewrite records_insert_same. discriminate. }
  run_all; give_events; intros the_status Hend; unfold ends_in in Hend.
  all: try (simpl in Hend; discriminate Hend).
  all: try (exfalso; simpl in Hend;
            match type of Hend with
            | hd_error (?pl ++ ?l)%list = Some ?e =>
                destruct (polling_head pl l e ltac:(assumption) Hend) as [Hx|Hx];
                discriminate Hx
            end).
  all: split; [apply Hmark|];
       intros w2 Hdb; apply second_look_is_idle; rewrite Hdb; apply Hmark.
Qed.

Lemma processed_once_then_skipped_witness :
  let w := fresh [] [] (map Size [100; 100; 100; 100; 100])
                 [Exited 0 (Some (Metadata.media []))] [Status 200; Status 204] in
  Store.is_already_processed (db (snd (analyze_file "/watch/a.mkv" w))) "/watch/a.mkv" = true.
Proof.
  intros w.
  destruct (processed_once_then_skipped "/watch/a.mkv" w) as [evs [Htr H]].
  rewrite app_nil_r in Htr.
  apply (H "OK"). unfold ends_in. rewrite <- Htr. reflexivity.
Defined.

End WorkflowOutcomes.

(** ** The routes *)

Section RouteExtras.
Import Py Env Workflow Events Routes.

(** The ntfy test answers success whenever it answers: when the post is
    refused or gets an error status, and when the channel is switched off
    or has no topic, in which case nothing is posted at all. *)
Theorem test_ntfy_always_reports_success (w : world) :
  (forall r, fst (test_ntfy w) = Ret r ->
             r = {| http_status := 200; status := "success"; body := TestNotificationSent |}) /\
  (forall e, fst (test_ntfy w) <> Raise e) /\
  (forall a rest, posts w = a :: rest -> exists r, fst (test_ntfy w) = Ret r) /\
  (channel_on Ntfy (conf w) = false ->
   trace (snd (test_ntfy w)) = trace w /\ posts (snd (test_ntfy w)) = posts w).
Proof.
  unfold test_ntfy, send_ntfy_notification, post, try_except, bind, ret, log, emit.
  simpl.
  destruct (enable_ntfy (conf w)), (is_set (ntfy_topic (conf w))); simpl;
    repeat split; try discriminate;
    try (intros r H; inversion H; reflexivity);
    try (intros; eexists; reflexivity).
  all: destruct (posts w) as [|[code|] rest]; simpl; try discriminate;
       try (intros r H; inversion H; reflexivity);
       try (intros a0 rest0 H; inversion H; eexists; reflexivity).
  all: intros a0 rest0 H; discriminate H.
Qed.

Lemma test_ntfy_always_reports_success_witness :
  let w := fresh [] [] [] [] [Refused] in
  exists r, fst (test_ntfy w) = Ret r.
Proof.
  intros w.
  destruct (test_ntfy_always_reports_success w) as [_ [_ [H _]]].
  apply (H Refused []). reflexivity.
Defined.

(** The Discord test posts to the webhook whatever the configuration says,
    switched off or without a webhook; it answers success with the code of
    any response, and 500 only when the post raises. *)
Theorem test_discord_ignores_the_switch (w : world) (a : http_answer)
    (rest : list http_answer) :
  posts w = a :: rest ->
  trace (snd (test_discord w)) = EvPost Discord "Test Notification" a :: trace w /\
  fst (test_discord w) =
  Ret (match a with
       | Status code =>
           {| http_status := 200; status := "success"; body := TestSentHTTP code |}
       | Refused =>
           {| http_status := 500; status := "error"; body := ErrorText RequestException |}
       end).
Proof.
  intros Hp. unfold test_discord, post, try_except, bind, ret, emit. rewrite Hp.
  destruct a; split; reflexivity.
Qed.

Lemma test_discord_ignores_the_switch_witness :
  let w := {| consts := default_consts; conf := discord_switched_off; db := [];
              store_faults := []; sizes := []; probes := [];
              posts := [Status 404]; clock := 0; trace := [] |} in
  fst (test_discord w) =
  Ret {| http_status := 200; status := "success"; body := TestSentHTTP 404 |}.
Proof.
  intros w.
  destruct (test_discord_ignores_the_switch w (Status 404) [] eq_refl) as [_ H].
  exact H.
Defined.

Lemma insert_or_replace_reachable t r :
  Store.reachable t -> Store.reachable (Store.insert_or_replace t r).
Proof.
  intros H. destruct r as [p ts st sz].
  exact (Store.reach_mark t p st sz ts H).
Qed.

Lemma commits_reachable between :
  forall t, Store.reachable t ->
            Store.reachable (fold_left Store.insert_or_replace between t).
Proof.
  induction between as [|r between IH]; intros t H; simpl; [exact H|].
  apply IH, insert_or_replace_reachable, H.
Qed.

Lemma insert_or_replace_grows t r :
  Store.reachable t ->
  Stats.count_all t <= Stats.count_all (Store.insert_or_replace t r).
Proof.
  intros H. destruct r as [p ts st sz].
  change (Store.insert_or_replace t
            {| Store.filepath := p; Store.processed_at := ts;
               Store.status := st; Store.size := sz |})
    with (Store.mark_as_processed t p st sz ts).
  rewrite total_rows_after_mark by exact H.
  destruct (Store.is_already_processed t p); lia.
Qed.

Lemma commits_grow between :
  forall t, Store.reachable t ->
            Stats.count_all t
            <= Stats.count_all (fold_left Store.insert_or_replace between t).
Proof.
  induction between as [|r between IH]; intros t H; simpl; [lia|].
  pose proof (insert_or_replace_grows t r H).
  pose proof (IH _ (insert_or_replace_reachable t r H)). lia.
Qed.

(** The statistics of [get_stats], whose two queries see the table at two
    moments: the total counts the rows at the first, the counts per status
    group the rows at the second (a status has an entry exactly when some
    row has it then, the entry being the number of those rows), so the
    counts sum to at least the total, workers only ever adding rows, and to
    exactly the total when no worker commits in between; when the store is
    not available the error is raised. *)
Theorem stats_add_up (w : world) (between : list Store.row) :
  Store.reachable (db w) ->
  (store_up w = false -> fst (get_stats between w) = Raise OperationalError) /\
  forall s,
    fst (get_stats between w) = Ret s ->
    total s = Z.of_nat (List.length (db w)) /\
    Stats.sum_counts (by_status s)
    = Z.of_nat (List.length (db (snd (get_stats between w)))) /\
    total s <= Stats.sum_counts (by_status s) /\
    (between = [] -> Stats.sum_counts (by_status s) = total s) /\
    (forall st n,
       Stats.count_of st (by_status s) = Some n <->
       (n = Z.of_nat (List.length
                        (Stats.with_status st (db (snd (get_stats between w))))) /\
        0 < n)) /\
    db (snd (get_stats between w)) = fold_left Store.insert_or_replace between (db w).
Proof.
  intros Hreach.
  unfold get_stats, store_access, store_up, bind, emit.
  destruct (store_faults w) as [|[|] faults]; simpl; split;
    try discriminate; try reflexivity.
  all: intros s H; inversion H; subst; simpl;
       destruct (count_by_status_adds_up
                   (fold_left Store.insert_or_replace between (db w)))
         as [Hsum Hcount];
       pose proof (commits_grow between (db w) Hreach) as Hgrow;
       unfold Stats.count_all in *;
       split; [reflexivity|]; split; [exact Hsum|]; split; [lia|];
       split; [intros ->; exact Hsum|]; split; [exact Hcount | reflexivity].
Qed.

Lemma stats_add_up_witness :
  let w := fresh (Store.mark_as_processed
                    (Store.mark_as_processed [] "/watch/a.mkv" "OK" 1 0)
                    "/watch/b.mkv" "OK" 2 1) [] [] [] [] in
  let late := {| Store.filepath := "/watch/c.mkv"; Store.processed_at := 2;
                 Store.status := "REMUX"; Store.size := 3 |} in
  exists s,
    fst (get_stats [late] w) = Ret s /\
    total s = 2 /\
    Stats.sum_counts (by_status s) = 3.
Proof.
  intros w late.
  destruct (stats_add_up w [late]) as [_ H].
  - unfold w. apply Store.reach_mark, Store.reach_mark, Store.reach_init.
  - eexists. split; [reflexivity|].
    destruct (H _ eq_refl) as [Htotal [Hsum _]].
    split; [exact Htotal | exact Hsum].
Defined.

End RouteExtras.
